(** * Verification of [iobuf.py]: the [data_buffer] object

    A shallow embedding of the [data_buffer] class of [iobuf.py] (the
    variable-width element container used to exchange data with JTAG
    devices), and proofs about its cursors, width conversions, endian
    swap and hashing; then of the stream adapters [write_file],
    [read_file] and [verify_file], with proofs about what they write,
    read back and record.  The [close] methods of the adapters (display
    and clock only) and [data_buffer.__str__] (string formatting) are not
    embedded.

    Python integers are unbounded, so elements and widths are [Z] and the
    bit operations are those of [Z].  The two cursors only ever hold
    [0], [len(self.buf)] or a previous value plus one, so they are [nat].
    A method is a computation over the object it is called on: it yields
    a value or raises, and the object's fields as they stand at that
    moment are part of the result either way.  Every object owns its
    list: [__init__] (and so [copy]) builds a fresh one and no method
    hands it out, so the in-place [append], [extend] and item assignment
    are updates of the one [buf] field.  [assert] statements are taken
    to be enabled. *)

From Stdlib Require Import ZArith Lia String Ascii.
From stdpp Require Import base list strings pretty.

Local Open Scope Z_scope.

(** ** The helpers of [util] *)

Module util.

(** Modelled from the spec: [util.mask] lives in [util.py], which is not
    part of the sources at hand; the spec describes it as the pure
    function producing a bit mask for a given width. *)
Definition mask (width : Z) : Z := Z.shiftl 1 width - 1.

(** Modelled from the spec: [util.mask_val] is missing with [util.py];
    [write] uses it to mask a value to [width] bits. *)
Definition mask_val (val width : Z) : Z := Z.land val (mask width).

(** Modelled from the spec: [util.swap16] is missing with [util.py]; it
    reverses the two constituent bytes of a 16-bit value. *)
Definition swap16 (x : Z) : Z :=
  Z.lor (Z.shiftl (Z.land x 255) 8) (Z.land (Z.shiftr x 8) 255).

(** Modelled from the spec: [util.swap32] is missing with [util.py]; it
    reverses the four constituent bytes of a 32-bit value. *)
Definition swap32 (x : Z) : Z :=
  Z.lor (Z.lor (Z.shiftl (Z.land x 255) 24)
               (Z.shiftl (Z.land (Z.shiftr x 8) 255) 16))
        (Z.lor (Z.shiftl (Z.land (Z.shiftr x 16) 255) 8)
               (Z.land (Z.shiftr x 24) 255)).

End util.

(** ** Exceptions and outcomes *)

(** The exceptions the class can raise.  An [assert] without a message
    carries the empty message. *)
Inductive exn : Type :=
  | IndexError
  | ValueError
  | AssertionError (msg : string).

(** The spec's names for the failures of the buffer. *)
Definition BufferUnderflow : exn := IndexError.
Definition BufferOverrun : exn :=
  AssertionError "buffer write error: more than 1 off the end".
Definition UnsupportedConversion : exn :=
  AssertionError "TODO: unsupported conversion from 16 to 32 bits".

Inductive outcome (A : Type) : Type :=
  | Ok (a : A)
  | Raise (e : exn).
Arguments Ok {A} a.
Arguments Raise {A} e.

#[global] Instance outcome_ret : MRet outcome := @Ok.
#[global] Instance outcome_bind : MBind outcome := λ A B f m,
  match m with
  | Ok a => f a
  | Raise e => Raise e
  end.

(** [l[i]] for a non-negative index. *)
Definition index {A} (l : list A) (i : nat) : outcome A :=
  match l !! i with
  | Some x => Ok x
  | None => Raise IndexError
  end.

(** A [for] loop that threads a local accumulator and may raise. *)
Fixpoint for_each {A B} (body : B → A → outcome B) (acc : B) (l : list A)
    : outcome B :=
  match l with
  | [] => Ok acc
  | x :: l' => acc' ← body acc x; for_each body acc' l'
  end.

(** [range(start, stop, step)] for a positive step.  At most [stop]
    indices are produced, which bounds the recursion. *)
Fixpoint range_from (fuel start stop step : nat) : list nat :=
  match fuel with
  | O => []
  | S fuel' =>
      if (start <? stop)%nat
      then start :: range_from fuel' (start + step) stop step
      else []
  end.

Definition py_range (start stop step : nat) : list nat :=
  range_from stop start stop step.

(** ** The object *)

Record data_buffer : Type := mk_data_buffer {
  width : Z;
  buf : list Z;
  wr_idx : nat;
  rd_idx : nat
}.

Definition set_width (w : Z) (self : data_buffer) : data_buffer :=
  mk_data_buffer w (buf self) (wr_idx self) (rd_idx self).
Definition set_buf (l : list Z) (self : data_buffer) : data_buffer :=
  mk_data_buffer (width self) l (wr_idx self) (rd_idx self).
Definition set_wr_idx (i : nat) (self : data_buffer) : data_buffer :=
  mk_data_buffer (width self) (buf self) i (rd_idx self).
Definition set_rd_idx (i : nat) (self : data_buffer) : data_buffer :=
  mk_data_buffer (width self) (buf self) (wr_idx self) i.

(** A method body: it runs on [self] and leaves an outcome together with
    the fields of [self] at the point where it returned or raised. *)
Definition M (A : Type) : Type := data_buffer → outcome A * data_buffer.

#[global] Instance M_ret : MRet M := λ A a self, (Ok a, self).
#[global] Instance M_bind : MBind M := λ A B f m self,
  match m self with
  | (Ok a, self') => f a self'
  | (Raise e, self') => (Raise e, self')
  end.

Definition get : M data_buffer := λ self, (Ok self, self).
Definition modify (f : data_buffer → data_buffer) : M unit :=
  λ self, (Ok tt, f self).
Definition raise {A} (e : exn) : M A := λ self, (Raise e, self).
Definition lift {A} (o : outcome A) : M A := λ self, (o, self).

(** [data_buffer.__init__]: [data] defaults to [None]; [None] and the
    empty sequence are both false in [if data:]. *)
Definition __init__ (width : Z) (data : option (list Z)) : data_buffer :=
  let buf :=
    match data with
    | Some ((_ :: _) as data) =>
        let mask := util.mask width in
        map (λ x, Z.land x mask) data
    | _ => []
    end in
  mk_data_buffer width buf (length buf) 0.

(** [data_buffer.copy]: a new object; [self] is only read. *)
Definition copy (self : data_buffer) : data_buffer :=
  __init__ (width self) (Some (buf self)).

(** [data_buffer.read] *)
Definition read : M Z :=
  self ← get;
  val ← lift (index (buf self) (rd_idx self));
  modify (set_rd_idx (rd_idx self + 1)%nat);;
  mret val.

(** [data_buffer.write] *)
Definition write (val : Z) : M unit :=
  self ← get;
  let val := util.mask_val val (width self) in
  if (wr_idx self =? length (buf self))%nat then
    modify (set_buf (buf self ++ [val]));;
    modify (set_wr_idx (wr_idx self + 1)%nat)
  else if (wr_idx self <? length (buf self))%nat then
    modify (set_buf (<[wr_idx self := val]> (buf self)))
  else
    raise BufferOverrun.

(** The tail shared by the three conversions:
    [self.wr_idx = len(self.buf); self.rd_idx = 0; self.width = w]. *)
Definition reset_indices (w : Z) : M unit :=
  self ← get;
  modify (set_wr_idx (length (buf self)));;
  modify (set_rd_idx 0%nat);;
  modify (set_width w).

Definition conversion_error (w : Z) : exn :=
  AssertionError ("conversion error: width " +:+ pretty w).

(** [data_buffer.convert8] *)
Definition convert8 (mode : string) : M unit :=
  self ← get;
  if width self =? 32 then
    let new_buf :=
      foldl (λ new_buf x,
        if String.eqb mode "be" then
          new_buf ++ [Z.land (Z.shiftr x 24) 255] ++ [Z.land (Z.shiftr x 16) 255]
                  ++ [Z.land (Z.shiftr x 8) 255] ++ [Z.land x 255]
        else
          new_buf ++ [Z.land x 255] ++ [Z.land (Z.shiftr x 8) 255]
                  ++ [Z.land (Z.shiftr x 16) 255] ++ [Z.land (Z.shiftr x 24) 255])
        [] (buf self) in
    modify (set_buf new_buf);;
    reset_indices 8
  else if width self =? 16 then
    let new_buf :=
      foldl (λ new_buf x,
        if String.eqb mode "be" then
          new_buf ++ [Z.land (Z.shiftr x 8) 255] ++ [Z.land x 255]
        else
          new_buf ++ [Z.land x 255] ++ [Z.land (Z.shiftr x 8) 255])
        [] (buf self) in
    modify (set_buf new_buf);;
    reset_indices 8
  else if width self =? 8 then
    mret tt
  else
    raise (conversion_error (width self)).

(** [data_buffer.convert16] *)
Definition convert16 (mode : string) : M unit :=
  self ← get;
  if width self =? 32 then
    let new_buf :=
      foldl (λ new_buf x,
        if String.eqb mode "be" then
          new_buf ++ [Z.land (Z.shiftr x 16) 65535] ++ [Z.land x 65535]
        else
          new_buf ++ [Z.land x 65535] ++ [Z.land (Z.shiftr x 16) 65535])
        [] (buf self) in
    modify (set_buf new_buf);;
    reset_indices 16
  else if width self =? 16 then
    mret tt
  else if width self =? 8 then
    let n := Z.land (Z.of_nat (length (buf self))) 1 in
    modify (set_buf (buf self ++ replicate (Z.to_nat n) 0));;
    self ← get;
    new_buf ← lift (for_each (λ new_buf i,
        b0 ← index (buf self) i;
        b1 ← index (buf self) (i + 1)%nat;
        let val :=
          if String.eqb mode "be" then Z.lor (Z.shiftl b0 8) b1
          else Z.lor b0 (Z.shiftl b1 8) in
        mret (new_buf ++ [val]))
      [] (py_range 0 (length (buf self)) 2));
    modify (set_buf new_buf);;
    reset_indices 16
  else
    raise (conversion_error (width self)).

(** [data_buffer.convert32] *)
Definition convert32 (mode : string) : M unit :=
  self ← get;
  if width self =? 32 then
    mret tt
  else if width self =? 16 then
    raise UnsupportedConversion
  else if width self =? 8 then
    let n := Z.land (4 - Z.land (Z.of_nat (length (buf self))) 3) 3 in
    modify (set_buf (buf self ++ replicate (Z.to_nat n) 0));;
    self ← get;
    new_buf ← lift (for_each (λ new_buf i,
        b0 ← index (buf self) i;
        b1 ← index (buf self) (i + 1)%nat;
        b2 ← index (buf self) (i + 2)%nat;
        b3 ← index (buf self) (i + 3)%nat;
        let val :=
          if String.eqb mode "be" then
            Z.lor (Z.lor (Z.lor (Z.shiftl b0 24) (Z.shiftl b1 16))
                         (Z.shiftl b2 8)) b3
          else
            Z.lor (Z.lor (Z.lor b0 (Z.shiftl b1 8)) (Z.shiftl b2 16))
                  (Z.shiftl b3 24) in
        mret (new_buf ++ [val]))
      [] (py_range 0 (length (buf self)) 4));
    modify (set_buf new_buf);;
    reset_indices 32
  else
    raise (conversion_error (width self)).

(** [data_buffer.convert] *)
Definition convert (width : Z) (mode : string) : M unit :=
  if width =? 8 then convert8 mode
  else if width =? 16 then convert16 mode
  else if width =? 32 then convert32 mode
  else raise (AssertionError "bad width").

(** [data_buffer.endian_swap] *)
Definition endian_swap : M unit :=
  self ← get;
  if width self =? 32 then
    modify (set_buf (map util.swap32 (buf self)))
  else if width self =? 16 then
    modify (set_buf (map util.swap16 (buf self)))
  else if width self =? 8 then
    mret tt
  else
    raise (AssertionError ("endian swap error: width " +:+ pretty (width self))).

(** [chr(b)], defined on [range(256)] only. *)
Definition chr (b : Z) : outcome ascii :=
  if (0 <=? b) && (b <? 256) then Ok (ascii_of_N (Z.to_N b))
  else Raise ValueError.

(** [''.join([chr(b) for b in l])] *)
Fixpoint join_chr (l : list Z) : outcome string :=
  match l with
  | [] => Ok EmptyString
  | b :: l' => c ← chr b; s ← join_chr l'; mret (String c s)
  end.

Section hashing.

(** [hashlib.md5] of the standard library: the digest, in hexadecimal,
    of a byte string. *)
Context (hexdigest : string → string).

(** [data_buffer.md5]: the conversion runs on the copy [x]; what is left
    of [self] is returned with the outcome. *)
Definition md5 (mode : string) : M string := λ self,
  let x := copy self in
  match convert8 mode x with
  | (Raise e, _) => (Raise e, self)
  | (Ok _, x) =>
      match join_chr (buf x) with
      | Raise e => (Raise e, self)
      | Ok s => (Ok (hexdigest s), self)
      end
  end.

End hashing.

(** ** Vocabulary of the statements *)

(** The widths the data model allows. *)
Definition valid_width (w : Z) : Prop := w = 8 ∨ w = 16 ∨ w = 32.

(** The masked-range invariant of the data model. *)
Definition in_range (self : data_buffer) : Prop :=
  Forall (λ e, 0 <= e < 2 ^ width self) (buf self).

(** The range of an 8-bit element. *)
Definition byte (e : Z) : Prop := 0 <= e < 2 ^ 8.

(** What every method preserves: a non-negative width and elements in
    its range. *)
Definition well_formed (self : data_buffer) : Prop :=
  0 <= width self ∧ in_range self.

(** The transitions that re-partition the elements. *)
Inductive transition : Z → Z → Prop :=
  | widen_8_16 : transition 8 16
  | widen_8_32 : transition 8 32
  | narrow_16_8 : transition 16 8
  | narrow_32_8 : transition 32 8
  | narrow_32_16 : transition 32 16.

(** The same, together with the conversion of a width to itself. *)
Definition transition_or_identity (w1 w2 : Z) : Prop :=
  transition w1 w2 ∨ (valid_width w1 ∧ w2 = w1).

(** "After a conversion along a transition in [T] the width is the target
    width and both cursors are reset." *)
Definition resets_cursors_along (T : Z → Z → Prop) : Prop :=
  ∀ (self : data_buffer) (target_width : Z) (mode : string),
    T (width self) target_width →
    ∃ self', convert target_width mode self = (Ok tt, self')
      ∧ width self' = target_width
      ∧ rd_idx self' = 0%nat
      ∧ wr_idx self' = length (buf self').

(** The sub-elements one element decomposes into, in emission order. *)
Definition split32_8 (mode : string) (x : Z) : list Z :=
  if String.eqb mode "be" then
    [Z.land (Z.shiftr x 24) 255; Z.land (Z.shiftr x 16) 255;
     Z.land (Z.shiftr x 8) 255; Z.land x 255]
  else
    [Z.land x 255; Z.land (Z.shiftr x 8) 255;
     Z.land (Z.shiftr x 16) 255; Z.land (Z.shiftr x 24) 255].

Definition split16_8 (mode : string) (x : Z) : list Z :=
  if String.eqb mode "be" then [Z.land (Z.shiftr x 8) 255; Z.land x 255]
  else [Z.land x 255; Z.land (Z.shiftr x 8) 255].

Definition split32_16 (mode : string) (x : Z) : list Z :=
  if String.eqb mode "be" then [Z.land (Z.shiftr x 16) 65535; Z.land x 65535]
  else [Z.land x 65535; Z.land (Z.shiftr x 16) 65535].

(** The element a run of two or four bytes combines into. *)
Definition join16 (mode : string) (b0 b1 : Z) : Z :=
  if String.eqb mode "be" then Z.lor (Z.shiftl b0 8) b1
  else Z.lor b0 (Z.shiftl b1 8).

Definition join32 (mode : string) (b0 b1 b2 b3 : Z) : Z :=
  if String.eqb mode "be" then
    Z.lor (Z.lor (Z.lor (Z.shiftl b0 24) (Z.shiftl b1 16)) (Z.shiftl b2 8)) b3
  else
    Z.lor (Z.lor (Z.lor b0 (Z.shiftl b1 8)) (Z.shiftl b2 16)) (Z.shiftl b3 24).

(** A byte sequence of aligned length, combined run by run. *)
Fixpoint pairs (mode : string) (l : list Z) : list Z :=
  match l with
  | b0 :: b1 :: l' => join16 mode b0 b1 :: pairs mode l'
  | _ => []
  end.

Fixpoint quads (mode : string) (l : list Z) : list Z :=
  match l with
  | b0 :: b1 :: b2 :: b3 :: l' => join32 mode b0 b1 b2 b3 :: quads mode l'
  | _ => []
  end.

(** The number of zero elements that bring a length [n] up to the next
    multiple of [k]. *)
Definition padding (k n : nat) : nat := ((k - n mod k) mod k)%nat.

(** The buffers a caller can obtain: built by the constructor, then
    driven through the methods (whether they return or raise). *)
Inductive reachable : data_buffer → Prop :=
  | reach_init (w : Z) (data : option (list Z)) :
      0 <= w → reachable (__init__ w data)
  | reach_copy self :
      reachable self → reachable (copy self)
  | reach_read self :
      reachable self → reachable (read self).2
  | reach_write self (val : Z) :
      reachable self → reachable (write val self).2
  | reach_convert self (w : Z) (mode : string) :
      reachable self → reachable (convert w mode self).2
  | reach_endian_swap self :
      reachable self → reachable (endian_swap self).2.

(** ** The remaining methods of [data_buffer] *)

(** [data_buffer.rd32], [rd16] and [rd8]: [assert self.width == w], which
    carries no message, then [read]. *)
Definition rd32 : M Z :=
  self ← get;
  if width self =? 32 then read else raise (AssertionError EmptyString).

Definition rd16 : M Z :=
  self ← get;
  if width self =? 16 then read else raise (AssertionError EmptyString).

Definition rd8 : M Z :=
  self ← get;
  if width self =? 8 then read else raise (AssertionError EmptyString).

(** [data_buffer.wr32], [wr16] and [wr8] *)
Definition wr32 (val : Z) : M unit :=
  self ← get;
  if width self =? 32 then write val else raise (AssertionError EmptyString).

Definition wr16 (val : Z) : M unit :=
  self ← get;
  if width self =? 16 then write val else raise (AssertionError EmptyString).

Definition wr8 (val : Z) : M unit :=
  self ← get;
  if width self =? 8 then write val else raise (AssertionError EmptyString).

(** The loop of [compare]: it returns [False] at the first index where
    the two buffers differ and [True] when the indices are used up. *)
Fixpoint compare_elements (l1 l2 : list Z) (indices : list nat)
    : outcome bool :=
  match indices with
  | [] => Ok true
  | i :: indices' =>
      a ← index l1 i;
      b ← index l2 i;
      if negb (a =? b) then Ok false else compare_elements l1 l2 indices'
  end.

(** [data_buffer.compare]; neither buffer is written to. *)
Definition compare (self x : data_buffer) : outcome bool :=
  if negb (width self =? width x) then Ok false
  else if negb (length (buf self) =? length (buf x))%nat then Ok false
  else compare_elements (buf self) (buf x) (py_range 0 (length (buf self)) 1).

(** [data_buffer.to_str] *)
Definition to_str (self : data_buffer) : outcome string :=
  if width self =? 8 then join_chr (buf self)
  else Raise (AssertionError "width must be 8 bits").

(** [c in s] for a one-character string [c]. *)
Fixpoint char_in (c : ascii) (s : string) : bool :=
  match s with
  | EmptyString => false
  | String c' s' => if Ascii.eqb c c' then true else char_in c s'
  end.

(** [''.join([('.', chr(b))[chr(b) in printable] for b in l])]: [chr(b)]
    is evaluated for every element, printable or not. *)
Fixpoint join_printable (printable : string) (l : list Z) : outcome string :=
  match l with
  | [] => Ok EmptyString
  | b :: l' =>
      c ← chr b;
      s ← join_printable printable l';
      mret (String (if char_in c printable then c else "."%char) s)
  end.

(** [data_buffer.ascii_str].  The module constant [printable] is built
    from [string.letters], which depends on the locale, so it is an
    argument here. *)
Definition ascii_str (printable : string) (self : data_buffer)
    : outcome string :=
  if width self =? 8 then join_printable printable (buf self)
  else Raise (AssertionError "width must be 8 bits").

(** [data_buffer.__len__] *)
Definition __len__ (self : data_buffer) : nat := length (buf self).

(** ** The stream adapters *)

Module struct.

(** [struct.pack(fmt, val)] of the standard library (as of Python 2.7),
    for the five format strings the adapters use, as the list of the
    bytes of the packed string.  [None] stands for [struct.error], which
    is raised when the value does not fit the format. *)
Definition pack (fmt : string) (val : Z) : option (list Z) :=
  if String.eqb fmt "B" then
    if (0 <=? val) && (val <? 256) then Some [val] else None
  else if String.eqb fmt "<H" then
    if (0 <=? val) && (val <? 65536)
    then Some [Z.land val 255; Z.land (Z.shiftr val 8) 255] else None
  else if String.eqb fmt ">H" then
    if (0 <=? val) && (val <? 65536)
    then Some [Z.land (Z.shiftr val 8) 255; Z.land val 255] else None
  else if String.eqb fmt "<L" then
    if (0 <=? val) && (val <? 4294967296)
    then Some [Z.land val 255; Z.land (Z.shiftr val 8) 255;
               Z.land (Z.shiftr val 16) 255; Z.land (Z.shiftr val 24) 255]
    else None
  else if String.eqb fmt ">L" then
    if (0 <=? val) && (val <? 4294967296)
    then Some [Z.land (Z.shiftr val 24) 255; Z.land (Z.shiftr val 16) 255;
               Z.land (Z.shiftr val 8) 255; Z.land val 255]
    else None
  else None.

(** [struct.unpack(fmt, data)[0]] for the same formats; [None] stands for
    the [struct.error] raised when the string has the wrong length. *)
Definition unpack (fmt : string) (data : list Z) : option Z :=
  if String.eqb fmt "B" then
    match data with [b0] => Some b0 | _ => None end
  else if String.eqb fmt "<H" then
    match data with
    | [b0; b1] => Some (Z.lor b0 (Z.shiftl b1 8))
    | _ => None
    end
  else if String.eqb fmt ">H" then
    match data with
    | [b0; b1] => Some (Z.lor (Z.shiftl b0 8) b1)
    | _ => None
    end
  else if String.eqb fmt "<L" then
    match data with
    | [b0; b1; b2; b3] =>
        Some (Z.lor (Z.lor (Z.lor b0 (Z.shiftl b1 8)) (Z.shiftl b2 16))
                    (Z.shiftl b3 24))
    | _ => None
    end
  else if String.eqb fmt ">L" then
    match data with
    | [b0; b1; b2; b3] =>
        Some (Z.lor (Z.lor (Z.lor (Z.shiftl b0 24) (Z.shiftl b1 16))
                           (Z.shiftl b2 8)) b3)
    | _ => None
    end
  else None.

End struct.

(** The terminal [ui] and the progress bar [util.progress] are
    collaborators whose code is not at hand.  What they show is an
    abstract state that the adapters thread through; nothing below
    depends on what the four operations do with it. *)
Class Display (D : Type) : Type := {
  ui_put : string → D → D;
  progress_new : Z → D → D;
  progress_update : nat → D → D;
  progress_erase : D → D
}.

(** A display that shows nothing. *)
#[global] Instance silent : Display unit := {
  ui_put _ d := d;
  progress_new _ d := d;
  progress_update _ d := d;
  progress_erase d := d
}.

(** A method of an adapter leaves a result, [None] when [struct.error]
    was raised, together with the object as it stands at that point. *)

Module write_file.

(** [f] is what has been written to the file so far. *)
Record t (D : Type) : Type := mk {
  ui : D;
  f : list Z;
  n : nat;
  fmt16 : string;
  fmt32 : string
}.
Arguments mk {D}.
Arguments ui {D}.
Arguments f {D}.
Arguments n {D}.
Arguments fmt16 {D}.
Arguments fmt32 {D}.

(** [write_file.__init__]: [open(name, 'wb')] starts an empty file. *)
Definition __init__ `{Display D} (ui : D) (msg : string) (size : Z)
    (mode : string) : t D :=
  mk (progress_new size (ui_put (msg +:+ " ") ui)) [] 0
     (if String.eqb mode "le" then "<H" else ">H")
     (if String.eqb mode "le" then "<L" else ">L").

(** [write_file.wr32]: the value is packed before anything is written. *)
Definition wr32 `{Display D} (val : Z) (self : t D) : option unit * t D :=
  match struct.pack (fmt32 self) val with
  | None => (None, self)
  | Some data =>
      (Some tt, mk (progress_update (n self + 4) (ui self)) (f self ++ data)
                  (n self + 4) (fmt16 self) (fmt32 self))
  end.

(** [write_file.wr16] *)
Definition wr16 `{Display D} (val : Z) (self : t D) : option unit * t D :=
  match struct.pack (fmt16 self) val with
  | None => (None, self)
  | Some data =>
      (Some tt, mk (progress_update (n self + 2) (ui self)) (f self ++ data)
                  (n self + 2) (fmt16 self) (fmt32 self))
  end.

(** [write_file.wr8] *)
Definition wr8 `{Display D} (val : Z) (self : t D) : option unit * t D :=
  match struct.pack "B" val with
  | None => (None, self)
  | Some data =>
      (Some tt, mk (progress_update (n self + 1) (ui self)) (f self ++ data)
                  (n self + 1) (fmt16 self) (fmt32 self))
  end.

End write_file.

Module read_file.

(** [f] is the part of the file that has not been read yet.  The clock
    reading [t_start] serves [close] only and is left out with it. *)
Record t (D : Type) : Type := mk {
  ui : D;
  f : list Z;
  n : nat;
  fmt16 : string;
  fmt32 : string
}.
Arguments mk {D}.
Arguments ui {D}.
Arguments f {D}.
Arguments n {D}.
Arguments fmt16 {D}.
Arguments fmt32 {D}.

(** [read_file.__init__]: [contents] is what [open(name, 'rb')] finds in
    the file. *)
Definition __init__ `{Display D} (ui : D) (msg : string)
    (contents : list Z) (size : Z) (mode : string) : t D :=
  mk (progress_new size (ui_put (msg +:+ " ") ui)) contents 0
     (if String.eqb mode "le" then "<H" else ">H")
     (if String.eqb mode "le" then "<L" else ">L").

(** [read_file.rd32] *)
Definition rd32 `{Display D} (self : t D) : option Z * t D :=
  let val := take 4 (f self) in
  let n_read := length val in
  let val :=
    if negb (n_read =? 4)%nat then val ++ replicate (4 - n_read) 255
    else val in
  let self := mk (progress_update (n self + 4) (ui self)) (drop 4 (f self))
                 (n self + 4) (fmt16 self) (fmt32 self) in
  (struct.unpack (fmt32 self) val, self).

(** [read_file.rd16] *)
Definition rd16 `{Display D} (self : t D) : option Z * t D :=
  let val := take 2 (f self) in
  let n_read := length val in
  let val :=
    if negb (n_read =? 2)%nat then val ++ replicate (2 - n_read) 255
    else val in
  let self := mk (progress_update (n self + 2) (ui self)) (drop 2 (f self))
                 (n self + 2) (fmt16 self) (fmt32 self) in
  (struct.unpack (fmt16 self) val, self).

(** [read_file.rd8] *)
Definition rd8 `{Display D} (self : t D) : option Z * t D :=
  let val := take 1 (f self) in
  let n_read := length val in
  let val := if (n_read =? 0)%nat then [255] else val in
  let self := mk (progress_update (n self + 1) (ui self)) (drop 1 (f self))
                 (n self + 1) (fmt16 self) (fmt32 self) in
  (struct.unpack "B" val, self).

End read_file.

Module verify_file.

(** [f] is the part of the file that has not been read yet; [diff] holds
    the recorded triples [(offset, value, value in the file)]. *)
Record t (D : Type) : Type := mk {
  ui : D;
  f : list Z;
  n : nat;
  diff : list (nat * Z * Z);
  fmt16 : string;
  fmt32 : string
}.
Arguments mk {D}.
Arguments ui {D}.
Arguments f {D}.
Arguments n {D}.
Arguments diff {D}.
Arguments fmt16 {D}.
Arguments fmt32 {D}.

(** [verify_file.__init__] *)
Definition __init__ `{Display D} (ui : D) (msg : string)
    (contents : list Z) (size : Z) (mode : string) : t D :=
  mk (progress_new size (ui_put (msg +:+ " ") ui)) contents 0 []
     (if String.eqb mode "le" then "<H" else ">H")
     (if String.eqb mode "le" then "<L" else ">L").

(** [verify_file.file_rd32] *)
Definition file_rd32 {D} (self : t D) : option Z * t D :=
  let val := take 4 (f self) in
  let n_read := length val in
  let val :=
    if negb (n_read =? 4)%nat then val ++ replicate (4 - n_read) 255
    else val in
  (struct.unpack (fmt32 self) val,
   mk (ui self) (drop 4 (f self)) (n self) (diff self)
      (fmt16 self) (fmt32 self)).

(** [verify_file.wr32] *)
Definition wr32 `{Display D} (val : Z) (self : t D) : option unit * t D :=
  match file_rd32 self with
  | (None, self) => (None, self)
  | (Some x, self) =>
      let diff :=
        if negb (val =? x) then diff self ++ [(n self, val, x)]
        else diff self in
      (Some tt, mk (progress_update (n self + 4) (ui self)) (f self)
                  (n self + 4) diff (fmt16 self) (fmt32 self))
  end.

End verify_file.

(** The byte order an adapter opened with [mode] uses, written as a
    conversion mode: the adapters are little-endian for ['le'] and
    big-endian for every other string. *)
Definition order (mode : string) : string :=
  if String.eqb mode "le" then "le" else "be".

(** The format strings an adapter opened with [mode] holds. *)
Definition fmt16_of (mode : string) : string :=
  if String.eqb mode "le" then "<H" else ">H".
Definition fmt32_of (mode : string) : string :=
  if String.eqb mode "le" then "<L" else ">L".

(** A caller writing out a sequence of values:
    [for val in vals: out.wr32(val)], which stops at the first
    [struct.error]. *)
Fixpoint wr32_all `{Display D} (vals : list Z) (self : write_file.t D)
    : option unit * write_file.t D :=
  match vals with
  | [] => (Some tt, self)
  | val :: vals' =>
      match write_file.wr32 val self with
      | (Some _, self') => wr32_all vals' self'
      | (None, self') => (None, self')
      end
  end.

(** The writers a caller can obtain from [write_file(ui, msg, name, size,
    mode)]. *)
Inductive written `{Display D} (mode : string) : write_file.t D → Prop :=
  | written_init (ui : D) (msg : string) (size : Z) :
      written mode (write_file.__init__ ui msg size mode)
  | written_wr32 (val : Z) self :
      written mode self → written mode (write_file.wr32 val self).2
  | written_wr16 (val : Z) self :
      written mode self → written mode (write_file.wr16 val self).2
  | written_wr8 (val : Z) self :
      written mode self → written mode (write_file.wr8 val self).2.

(** The readers a caller can obtain from [read_file(ui, msg, name, size,
    mode)] on a file holding the bytes [contents]. *)
Inductive reading `{Display D} (mode : string) (contents : list Z)
    : read_file.t D → Prop :=
  | reading_init (ui : D) (msg : string) (size : Z) :
      reading mode contents (read_file.__init__ ui msg contents size mode)
  | reading_rd32 self :
      reading mode contents self → reading mode contents (read_file.rd32 self).2
  | reading_rd16 self :
      reading mode contents self → reading mode contents (read_file.rd16 self).2
  | reading_rd8 self :
      reading mode contents self → reading mode contents (read_file.rd8 self).2.

(** The verifiers a caller can obtain from [verify_file(ui, msg, name,
    size, mode)] on a file holding the bytes [contents]. *)
Inductive verifying `{Display D} (mode : string) (contents : list Z)
    : verify_file.t D → Prop :=
  | verifying_init (ui : D) (msg : string) (size : Z) :
      verifying mode contents
        (verify_file.__init__ ui msg contents size mode)
  | verifying_wr32 (val : Z) self :
      verifying mode contents self →
      verifying mode contents (verify_file.wr32 val self).2.

(** ** Concrete runs *)

Example convert32_pad_run :
  convert 32 "be" (__init__ 8 (Some [1; 2; 3; 4; 5]))
  = (Ok tt, mk_data_buffer 32 [0x01020304; 0x05000000] 2 0).
Proof. reflexivity. Qed.

Example convert8_run :
  convert 8 "be" (__init__ 32 (Some [0x01020304]))
  = (Ok tt, mk_data_buffer 8 [1; 2; 3; 4] 4 0).
Proof. reflexivity. Qed.

Example endian_swap_run :
  endian_swap (__init__ 32 (Some [0x01020304; 0xa0b0c0d0]))
  = (Ok tt, mk_data_buffer 32 [0x04030201; 0xd0c0b0a0] 2 0).
Proof. reflexivity. Qed.

Example read_write_run :
  (read;; write 0x12345) (__init__ 16 (Some [1; 2]))
  = (Ok tt, mk_data_buffer 16 [1; 2; 0x2345] 3 1).
Proof. reflexivity. Qed.

(** ** Bit arithmetic *)

Section bits.

(** Two numbers with no bit in common are or-ed by adding them. *)
Lemma lor_disjoint_add (n X a : Z) :
  0 <= n → 0 <= a < 2 ^ n → X mod 2 ^ n = 0 → Z.lor X a = X + a.
Proof.
  intros Hn Ha HX.
  assert (Hland : Z.land X a = 0).
  { apply Z.bits_inj'. intros i Hi. rewrite Z.land_spec, Z.bits_0.
    destruct (Z.lt_ge_cases i n) as [Hlt | Hge].
    - rewrite <- (Z.mod_pow2_bits_low X n i) by lia.
      rewrite HX, Z.bits_0. reflexivity.
    - rewrite <- (Z.mod_small a (2 ^ n)) by lia.
      rewrite Z.mod_pow2_bits_high by lia. apply andb_false_r. }
  rewrite <- Z.lxor_lor by assumption.
  symmetry. now apply Z.add_nocarry_lxor.
Qed.

Lemma land_255 (x : Z) : Z.land x 255 = x mod 256.
Proof. change 255 with (Z.ones 8). now rewrite Z.land_ones by lia. Qed.

Lemma land_65535 (x : Z) : Z.land x 65535 = x mod 65536.
Proof. change 65535 with (Z.ones 16). now rewrite Z.land_ones by lia. Qed.

Lemma mask_val_mod (val w : Z) : 0 <= w → util.mask_val val w = val mod 2 ^ w.
Proof.
  intros Hw. unfold util.mask_val, util.mask.
  rewrite <- Z.land_ones by assumption.
  unfold Z.ones. now rewrite Z.sub_1_r.
Qed.

End bits.

(** Shifts and masks by constants become divisions and remainders; an
    [or] of parts that do not overlap becomes a sum. *)
Ltac shifts_to_arith :=
  rewrite ?land_255, ?land_65535, ?Z.shiftl_mul_pow2, ?Z.shiftr_div_pow2 by lia;
  change (2 ^ 8) with 256 in *; change (2 ^ 16) with 65536 in *;
  change (2 ^ 24) with 16777216 in *; change (2 ^ 32) with 4294967296 in *.

Ltac div_mod_lia := Z.div_mod_to_equations; lia.

Ltac lor_to_add :=
  match goal with
  | |- context [Z.lor ?X ?a] =>
      first [ rewrite (lor_disjoint_add 8 X a) by (try div_mod_lia; lia)
            | rewrite (lor_disjoint_add 16 X a) by (try div_mod_lia; lia)
            | rewrite (lor_disjoint_add 24 X a) by (try div_mod_lia; lia)
            | rewrite (Z.lor_comm X a), (lor_disjoint_add 8 a X)
                by (try div_mod_lia; lia)
            | rewrite (Z.lor_comm X a), (lor_disjoint_add 16 a X)
                by (try div_mod_lia; lia)
            | rewrite (Z.lor_comm X a), (lor_disjoint_add 24 a X)
                by (try div_mod_lia; lia) ]
  end.

Ltac bits := shifts_to_arith; repeat lor_to_add; try div_mod_lia.

(** Two lists of the same shape are compared element by element. *)
Ltac elementwise :=
  repeat match goal with |- _ :: _ = _ :: _ => f_equal end.

Section bytes.

Implicit Types (b x : Z) (mode : string).

Lemma join16_range mode b0 b1 :
  0 <= b0 < 256 → 0 <= b1 < 256 → 0 <= join16 mode b0 b1 < 2 ^ 16.
Proof. intros. unfold join16. destruct (String.eqb mode "be"); bits. Qed.

Lemma join32_range mode b0 b1 b2 b3 :
  0 <= b0 < 256 → 0 <= b1 < 256 → 0 <= b2 < 256 → 0 <= b3 < 256 →
  0 <= join32 mode b0 b1 b2 b3 < 2 ^ 32.
Proof. intros. unfold join32. destruct (String.eqb mode "be"); bits. Qed.

Lemma split16_8_join16 mode b0 b1 :
  0 <= b0 < 256 → 0 <= b1 < 256 →
  split16_8 mode (join16 mode b0 b1) = [b0; b1].
Proof.
  intros. unfold split16_8, join16.
  destruct (String.eqb mode "be"); elementwise; bits.
Qed.

Lemma split32_8_join32 mode b0 b1 b2 b3 :
  0 <= b0 < 256 → 0 <= b1 < 256 → 0 <= b2 < 256 → 0 <= b3 < 256 →
  split32_8 mode (join32 mode b0 b1 b2 b3) = [b0; b1; b2; b3].
Proof.
  intros. unfold split32_8, join32.
  destruct (String.eqb mode "be"); elementwise; bits.
Qed.

Lemma quads_split32_8 mode x l :
  0 <= x < 2 ^ 32 →
  quads mode (split32_8 mode x ++ l) = x :: quads mode l.
Proof.
  intros. unfold split32_8.
  destruct (String.eqb mode "be") eqn:E; cbn [app quads]; f_equal;
    unfold join32; rewrite E; bits.
Qed.

End bytes.

Section elements.

Implicit Types (x : Z) (mode : string).

Lemma split32_16_then_8 mode x :
  split32_16 mode x ≫= split16_8 mode = split32_8 mode x.
Proof.
  unfold split32_16, split16_8, split32_8.
  destruct (String.eqb mode "be"); cbn [mbind list_bind app];
    elementwise; bits.
Qed.

Lemma split32_8_range mode x :
  Forall (λ e, 0 <= e < 2 ^ 8) (split32_8 mode x).
Proof.
  unfold split32_8.
  destruct (String.eqb mode "be"); repeat constructor; bits.
Qed.

Lemma split16_8_range mode x :
  Forall (λ e, 0 <= e < 2 ^ 8) (split16_8 mode x).
Proof.
  unfold split16_8.
  destruct (String.eqb mode "be"); repeat constructor; bits.
Qed.

Lemma split32_16_range mode x :
  Forall (λ e, 0 <= e < 2 ^ 16) (split32_16 mode x).
Proof.
  unfold split32_16.
  destruct (String.eqb mode "be"); repeat constructor; bits.
Qed.

Lemma swap16_range x : 0 <= util.swap16 x < 2 ^ 16.
Proof. unfold util.swap16. bits. Qed.

Lemma swap32_range x : 0 <= util.swap32 x < 2 ^ 32.
Proof. unfold util.swap32. bits. Qed.

Lemma swap16_involutive x :
  0 <= x < 2 ^ 16 → util.swap16 (util.swap16 x) = x.
Proof. intros. unfold util.swap16. bits. Qed.

(** A 32-bit value written out in its four bytes, and what [swap32]
    makes of them. *)
Lemma bytes_of_word x :
  0 <= x < 2 ^ 32 →
  ∃ b0 b1 b2 b3,
    (0 <= b0 < 256 ∧ 0 <= b1 < 256 ∧ 0 <= b2 < 256 ∧ 0 <= b3 < 256)
    ∧ x = b0 + 256 * b1 + 65536 * b2 + 16777216 * b3.
Proof.
  intros Hx.
  exists (x mod 256), ((x / 256) mod 256), ((x / 65536) mod 256),
    (x / 16777216).
  change (2 ^ 32) with 4294967296 in Hx. div_mod_lia.
Qed.

Lemma swap32_of_bytes b0 b1 b2 b3 :
  0 <= b0 < 256 → 0 <= b1 < 256 → 0 <= b2 < 256 → 0 <= b3 < 256 →
  util.swap32 (b0 + 256 * b1 + 65536 * b2 + 16777216 * b3)
  = b3 + 256 * b2 + 65536 * b1 + 16777216 * b0.
Proof.
  intros. unfold util.swap32. shifts_to_arith.
  replace ((b0 + 256 * b1 + 65536 * b2 + 16777216 * b3) mod 256) with b0
    by div_mod_lia.
  replace (((b0 + 256 * b1 + 65536 * b2 + 16777216 * b3) / 256) mod 256)
    with b1 by div_mod_lia.
  replace (((b0 + 256 * b1 + 65536 * b2 + 16777216 * b3) / 65536) mod 256)
    with b2 by div_mod_lia.
  replace (((b0 + 256 * b1 + 65536 * b2 + 16777216 * b3) / 16777216) mod 256)
    with b3 by div_mod_lia.
  repeat lor_to_add. lia.
Qed.

Lemma swap32_involutive x :
  0 <= x < 2 ^ 32 → util.swap32 (util.swap32 x) = x.
Proof.
  intros Hx. destruct (bytes_of_word x Hx) as (b0 & b1 & b2 & b3 & Hb & ->).
  rewrite !swap32_of_bytes by lia. lia.
Qed.

End elements.

Section loops.

Implicit Types (l pre acc : list Z) (mode : string).

Lemma foldl_app_bind {A B} (g : list B → A → list B) (f : A → list B) :
  (∀ r x, g r x = r ++ f x) →
  ∀ (xs : list A) (r : list B), foldl g r xs = r ++ (xs ≫= f).
Proof.
  intros Hg xs. induction xs as [|x xs IH]; intros r; cbn.
  - now rewrite app_nil_r.
  - rewrite IH, Hg. now rewrite <- app_assoc.
Qed.

Lemma index_middle {A} (xs ys : list A) (x : A) :
  index (xs ++ x :: ys) (length xs) = Ok x.
Proof. unfold index. now rewrite list_lookup_middle. Qed.

Lemma loop16 mode : ∀ (k : nat) l pre acc (fuel : nat),
  length l = (2 * k)%nat → (k ≤ fuel)%nat →
  for_each (λ new_buf i,
      b0 ← index (pre ++ l) i;
      b1 ← index (pre ++ l) (i + 1)%nat;
      let val :=
        if String.eqb mode "be" then Z.lor (Z.shiftl b0 8) b1
        else Z.lor b0 (Z.shiftl b1 8) in
      mret (new_buf ++ [val]))
    acc (range_from fuel (length pre) (length (pre ++ l)) 2)
  = Ok (acc ++ pairs mode l).
Proof.
  induction k as [|k IH]; intros l pre acc fuel Hl Hfuel.
  - destruct l; [|discriminate]. rewrite !app_nil_r.
    destruct fuel; cbn [range_from for_each]; [reflexivity|].
    now rewrite Nat.ltb_irrefl.
  - destruct l as [|b0 [|b1 l]]; cbn in Hl; try lia.
    destruct fuel as [|fuel]; [lia|].
    cbn [range_from].
    rewrite length_app. cbn [length].
    destruct (Nat.ltb_spec (length pre) (length pre + S (S (length l))));
      [|lia].
    cbn [for_each].
    rewrite index_middle.
    replace (pre ++ b0 :: b1 :: l) with ((pre ++ [b0]) ++ b1 :: l)
      by now rewrite <- app_assoc.
    replace (length pre + 1)%nat with (length (pre ++ [b0]))
      by (rewrite length_app; reflexivity).
    rewrite index_middle.
    cbn [mbind outcome_bind mret outcome_ret].
    replace ((pre ++ [b0]) ++ b1 :: l) with ((pre ++ [b0; b1]) ++ l)
      by now rewrite <- !app_assoc.
    replace (length pre + 2)%nat with (length (pre ++ [b0; b1]))
      by (rewrite length_app; reflexivity).
    replace (length pre + S (S (length l)))%nat
      with (length ((pre ++ [b0; b1]) ++ l))
      by (rewrite !length_app; cbn [length]; lia).
    etransitivity; [apply (IH l (pre ++ [b0; b1]) _ fuel); lia|].
    cbn [pairs]. unfold join16. now rewrite <- app_assoc.
Qed.

Lemma loop32 mode : ∀ (k : nat) l pre acc (fuel : nat),
  length l = (4 * k)%nat → (k ≤ fuel)%nat →
  for_each (λ new_buf i,
      b0 ← index (pre ++ l) i;
      b1 ← index (pre ++ l) (i + 1)%nat;
      b2 ← index (pre ++ l) (i + 2)%nat;
      b3 ← index (pre ++ l) (i + 3)%nat;
      let val :=
        if String.eqb mode "be" then
          Z.lor (Z.lor (Z.lor (Z.shiftl b0 24) (Z.shiftl b1 16))
                       (Z.shiftl b2 8)) b3
        else
          Z.lor (Z.lor (Z.lor b0 (Z.shiftl b1 8)) (Z.shiftl b2 16))
                (Z.shiftl b3 24) in
      mret (new_buf ++ [val]))
    acc (range_from fuel (length pre) (length (pre ++ l)) 4)
  = Ok (acc ++ quads mode l).
Proof.
  induction k as [|k IH]; intros l pre acc fuel Hl Hfuel.
  - destruct l; [|discriminate]. rewrite !app_nil_r.
    destruct fuel; cbn [range_from for_each]; [reflexivity|].
    now rewrite Nat.ltb_irrefl.
  - destruct l as [|b0 [|b1 [|b2 [|b3 l]]]]; cbn in Hl; try lia.
    destruct fuel as [|fuel]; [lia|].
    cbn [range_from].
    rewrite length_app. cbn [length].
    destruct (Nat.ltb_spec (length pre)
                (length pre + S (S (S (S (length l)))))); [|lia].
    cbn [for_each].
    rewrite index_middle.
    replace (pre ++ b0 :: b1 :: b2 :: b3 :: l)
      with ((pre ++ [b0]) ++ b1 :: b2 :: b3 :: l)
      by now rewrite <- app_assoc.
    replace (length pre + 1)%nat with (length (pre ++ [b0]))
      by (rewrite length_app; reflexivity).
    rewrite index_middle.
    replace ((pre ++ [b0]) ++ b1 :: b2 :: b3 :: l)
      with ((pre ++ [b0; b1]) ++ b2 :: b3 :: l)
      by now rewrite <- !app_assoc.
    replace (length pre + 2)%nat with (length (pre ++ [b0; b1]))
      by (rewrite length_app; reflexivity).
    rewrite index_middle.
    replace ((pre ++ [b0; b1]) ++ b2 :: b3 :: l)
      with ((pre ++ [b0; b1; b2]) ++ b3 :: l)
      by now rewrite <- !app_assoc.
    replace (length pre + 3)%nat with (length (pre ++ [b0; b1; b2]))
      by (rewrite length_app; reflexivity).
    rewrite index_middle.
    cbn [mbind outcome_bind mret outcome_ret].
    replace ((pre ++ [b0; b1; b2]) ++ b3 :: l)
      with ((pre ++ [b0; b1; b2; b3]) ++ l)
      by now rewrite <- !app_assoc.
    replace (length pre + 4)%nat with (length (pre ++ [b0; b1; b2; b3]))
      by (rewrite length_app; reflexivity).
    replace (length pre + S (S (S (S (length l)))))%nat
      with (length ((pre ++ [b0; b1; b2; b3]) ++ l))
      by (rewrite !length_app; cbn [length]; lia).
    etransitivity; [apply (IH l (pre ++ [b0; b1; b2; b3]) _ fuel); lia|].
    cbn [quads]. unfold join32. now rewrite <- app_assoc.
Qed.

End loops.

Section alignment.

Implicit Types (n k : nat).

Lemma land_1_padding n :
  Z.to_nat (Z.land (Z.of_nat n) 1) = padding 2 n.
Proof.
  change 1 with (Z.ones 1). rewrite Z.land_ones by lia.
  unfold padding. change (2 ^ 1) with 2.
  pose proof (Nat.mod_upper_bound n 2).
  assert (Z.of_nat n mod 2 = Z.of_nat (n mod 2)) as ->
    by (now rewrite Nat2Z.inj_mod).
  rewrite Nat2Z.id.
  destruct (n mod 2)%nat as [|[|?]] eqn:E; [reflexivity|reflexivity|lia].
Qed.

Lemma land_3_padding n :
  Z.to_nat (Z.land (4 - Z.land (Z.of_nat n) 3) 3) = padding 4 n.
Proof.
  change 3 with (Z.ones 2). rewrite !Z.land_ones by lia.
  unfold padding. change (2 ^ 2) with 4.
  pose proof (Nat.mod_upper_bound n 4).
  assert (Z.of_nat n mod 4 = Z.of_nat (n mod 4)) as ->
    by (now rewrite Nat2Z.inj_mod).
  destruct (n mod 4)%nat as [|[|[|[|?]]]] eqn:E; try reflexivity. lia.
Qed.

Lemma padding_aligned k n : (n mod k = 0)%nat → padding k n = 0%nat.
Proof.
  intros H. unfold padding. rewrite H, Nat.sub_0_r.
  destruct k; [reflexivity|]. apply Nat.Div0.mod_same.
Qed.

Lemma padded_multiple k n :
  (0 < k)%nat → ∃ q, (n + padding k n = k * q)%nat ∧ (q ≤ n + padding k n)%nat.
Proof.
  intros Hk. unfold padding.
  pose proof (Nat.div_mod_eq n k) as Hn.
  pose proof (Nat.mod_upper_bound n k ltac:(lia)) as Hr.
  destruct (n mod k)%nat as [|r] eqn:E.
  - exists (n / k)%nat. rewrite Nat.sub_0_r, Nat.Div0.mod_same. nia.
  - exists (S (n / k)). rewrite Nat.mod_small by lia. nia.
Qed.

End alignment.

Section sequences.

Implicit Types (l : list Z) (mode : string).

Lemma pairs_split mode : ∀ (k : nat) l,
  length l = (2 * k)%nat → Forall byte l →
  pairs mode l ≫= split16_8 mode = l.
Proof.
  induction k as [|k IH]; intros l Hl Hb.
  - now destruct l.
  - destruct l as [|b0 [|b1 l]]; cbn in Hl; try lia.
    apply Forall_cons in Hb as [H0 Hb]. apply Forall_cons in Hb as [H1 Hb].
    cbn [pairs]. rewrite bind_cons, split16_8_join16 by assumption.
    cbn [app]. f_equal. f_equal. apply IH; [lia|assumption].
Qed.

Lemma quads_split mode : ∀ (k : nat) l,
  length l = (4 * k)%nat → Forall byte l →
  quads mode l ≫= split32_8 mode = l.
Proof.
  induction k as [|k IH]; intros l Hl Hb.
  - now destruct l.
  - destruct l as [|b0 [|b1 [|b2 [|b3 l]]]]; cbn in Hl; try lia.
    apply Forall_cons in Hb as [H0 Hb]. apply Forall_cons in Hb as [H1 Hb].
    apply Forall_cons in Hb as [H2 Hb]. apply Forall_cons in Hb as [H3 Hb].
    cbn [quads]. rewrite bind_cons, split32_8_join32 by assumption.
    cbn [app]. do 4 f_equal. apply IH; [lia|assumption].
Qed.

Lemma pairs_range mode : ∀ (k : nat) l,
  length l = (2 * k)%nat → Forall byte l →
  Forall (λ e, 0 <= e < 2 ^ 16) (pairs mode l).
Proof.
  induction k as [|k IH]; intros l Hl Hb.
  - destruct l; [constructor|discriminate].
  - destruct l as [|b0 [|b1 l]]; cbn in Hl; try lia.
    apply Forall_cons in Hb as [H0 Hb]. apply Forall_cons in Hb as [H1 Hb].
    cbn [pairs]. constructor; [now apply join16_range|].
    apply IH; [lia|assumption].
Qed.

Lemma quads_range mode : ∀ (k : nat) l,
  length l = (4 * k)%nat → Forall byte l →
  Forall (λ e, 0 <= e < 2 ^ 32) (quads mode l).
Proof.
  induction k as [|k IH]; intros l Hl Hb.
  - destruct l; [constructor|discriminate].
  - destruct l as [|b0 [|b1 [|b2 [|b3 l]]]]; cbn in Hl; try lia.
    apply Forall_cons in Hb as [H0 Hb]. apply Forall_cons in Hb as [H1 Hb].
    apply Forall_cons in Hb as [H2 Hb]. apply Forall_cons in Hb as [H3 Hb].
    cbn [quads]. constructor; [now apply join32_range|].
    apply IH; [lia|assumption].
Qed.

Lemma quads_bind_split32_8 mode l :
  Forall (λ e, 0 <= e < 2 ^ 32) l → quads mode (l ≫= split32_8 mode) = l.
Proof.
  induction 1 as [|x l Hx _ IH]; [reflexivity|].
  rewrite bind_cons, quads_split32_8 by assumption. now rewrite IH.
Qed.

Lemma bind_split32_16_then_8 mode l :
  (l ≫= split32_16 mode) ≫= split16_8 mode = l ≫= split32_8 mode.
Proof.
  induction l as [|x l IH]; [reflexivity|].
  now rewrite !bind_cons, bind_app, IH, split32_16_then_8.
Qed.

Lemma padded_bytes l (n : nat) :
  Forall byte l → Forall byte (l ++ replicate n 0).
Proof.
  intros Hl. apply Forall_app. split; [assumption|].
  apply Forall_replicate. unfold byte. lia.
Qed.

Lemma length_bind_split32_8 mode l :
  length (l ≫= split32_8 mode) = (4 * length l)%nat.
Proof.
  induction l as [|x l IH]; [reflexivity|].
  rewrite bind_cons, length_app, IH. unfold split32_8.
  destruct (String.eqb mode "be"); cbn [length]; lia.
Qed.

End sequences.

(** ** The methods, branch by branch *)

(** Unfolds a method body down to the pair it computes. *)
Ltac run :=
  cbv [mbind M_bind mret M_ret get modify raise lift reset_indices
       set_buf set_width set_wr_idx set_rd_idx width buf wr_idx rd_idx].

Section branches.

Implicit Types (self : data_buffer) (mode : string).

Lemma convert8_32 mode self :
  width self = 32 →
  convert8 mode self
  = (Ok tt, mk_data_buffer 8 (buf self ≫= split32_8 mode)
              (length (buf self ≫= split32_8 mode)) 0).
Proof.
  destruct self as [w l wr rd]. cbn [width buf]. intros ->.
  unfold convert8. run. cbn [Z.eqb Pos.eqb].
  rewrite (foldl_app_bind _ (split32_8 mode))
    by (intros; unfold split32_8; now destruct (String.eqb mode "be")).
  reflexivity.
Qed.

Lemma convert8_16 mode self :
  width self = 16 →
  convert8 mode self
  = (Ok tt, mk_data_buffer 8 (buf self ≫= split16_8 mode)
              (length (buf self ≫= split16_8 mode)) 0).
Proof.
  destruct self as [w l wr rd]. cbn [width buf]. intros ->.
  unfold convert8. run. cbn [Z.eqb Pos.eqb].
  rewrite (foldl_app_bind _ (split16_8 mode))
    by (intros; unfold split16_8; now destruct (String.eqb mode "be")).
  reflexivity.
Qed.

Lemma convert8_8 mode self :
  width self = 8 → convert8 mode self = (Ok tt, self).
Proof.
  destruct self as [w l wr rd]. cbn [width]. intros ->. reflexivity.
Qed.

Lemma convert16_32 mode self :
  width self = 32 →
  convert16 mode self
  = (Ok tt, mk_data_buffer 16 (buf self ≫= split32_16 mode)
              (length (buf self ≫= split32_16 mode)) 0).
Proof.
  destruct self as [w l wr rd]. cbn [width buf]. intros ->.
  unfold convert16. run. cbn [Z.eqb Pos.eqb].
  rewrite (foldl_app_bind _ (split32_16 mode))
    by (intros; unfold split32_16; now destruct (String.eqb mode "be")).
  reflexivity.
Qed.

Lemma convert16_16 mode self :
  width self = 16 → convert16 mode self = (Ok tt, self).
Proof.
  destruct self as [w l wr rd]. cbn [width]. intros ->. reflexivity.
Qed.

Lemma convert16_8 mode self :
  width self = 8 →
  let padded := buf self ++ replicate (padding 2 (length (buf self))) 0 in
  convert16 mode self
  = (Ok tt, mk_data_buffer 16 (pairs mode padded)
              (length (pairs mode padded)) 0).
Proof.
  intros Hw padded. destruct self as [w l wr rd].
  cbn [width buf] in Hw, padded. subst w.
  unfold convert16. run. cbn [Z.eqb Pos.eqb].
  rewrite land_1_padding. fold padded.
  destruct (padded_multiple 2 (length l)) as (q & Hq & Hle); [lia|].
  assert (Hlen : length padded = (2 * q)%nat).
  { unfold padded. now rewrite length_app, length_replicate. }
  pose proof (loop16 mode q padded [] [] (length padded) Hlen) as Hloop.
  cbn [app length] in Hloop. cbv [mbind mret] in Hloop.
  unfold py_range. now rewrite Hloop by lia.
Qed.

Lemma convert32_32 mode self :
  width self = 32 → convert32 mode self = (Ok tt, self).
Proof.
  destruct self as [w l wr rd]. cbn [width]. intros ->. reflexivity.
Qed.

Lemma convert32_16 mode self :
  width self = 16 → convert32 mode self = (Raise UnsupportedConversion, self).
Proof.
  destruct self as [w l wr rd]. cbn [width]. intros ->. reflexivity.
Qed.

Lemma convert32_8 mode self :
  width self = 8 →
  let padded := buf self ++ replicate (padding 4 (length (buf self))) 0 in
  convert32 mode self
  = (Ok tt, mk_data_buffer 32 (quads mode padded)
              (length (quads mode padded)) 0).
Proof.
  intros Hw padded. destruct self as [w l wr rd].
  cbn [width buf] in Hw, padded. subst w.
  unfold convert32. run. cbn [Z.eqb Pos.eqb].
  rewrite land_3_padding. fold padded.
  destruct (padded_multiple 4 (length l)) as (q & Hq & Hle); [lia|].
  assert (Hlen : length padded = (4 * q)%nat).
  { unfold padded. now rewrite length_app, length_replicate. }
  pose proof (loop32 mode q padded [] [] (length padded) Hlen) as Hloop.
  cbn [app length] in Hloop. cbv [mbind mret] in Hloop.
  unfold py_range. now rewrite Hloop by lia.
Qed.

(** Outside of 8, 16 and 32 every conversion and the swap raise, and
    leave the object as it was. *)
Lemma convert8_other mode self :
  ¬ valid_width (width self) →
  convert8 mode self = (Raise (conversion_error (width self)), self).
Proof.
  unfold valid_width. intros Hw. destruct self as [w l wr rd].
  cbn [width] in *. unfold convert8. run.
  destruct (Z.eqb_spec w 32); [lia|].
  destruct (Z.eqb_spec w 16); [lia|].
  destruct (Z.eqb_spec w 8); [lia|]. reflexivity.
Qed.

Lemma convert16_other mode self :
  ¬ valid_width (width self) →
  convert16 mode self = (Raise (conversion_error (width self)), self).
Proof.
  unfold valid_width. intros Hw. destruct self as [w l wr rd].
  cbn [width] in *. unfold convert16. run.
  destruct (Z.eqb_spec w 32); [lia|].
  destruct (Z.eqb_spec w 16); [lia|].
  destruct (Z.eqb_spec w 8); [lia|]. reflexivity.
Qed.

Lemma convert32_other mode self :
  ¬ valid_width (width self) →
  convert32 mode self = (Raise (conversion_error (width self)), self).
Proof.
  unfold valid_width. intros Hw. destruct self as [w l wr rd].
  cbn [width] in *. unfold convert32. run.
  destruct (Z.eqb_spec w 32); [lia|].
  destruct (Z.eqb_spec w 16); [lia|].
  destruct (Z.eqb_spec w 8); [lia|]. reflexivity.
Qed.

Lemma endian_swap_unfold self :
  endian_swap self
  = if width self =? 32 then (Ok tt, set_buf (map util.swap32 (buf self)) self)
    else if width self =? 16
      then (Ok tt, set_buf (map util.swap16 (buf self)) self)
    else if width self =? 8 then (Ok tt, self)
    else (Raise (AssertionError
                   ("endian swap error: width " +:+ pretty (width self))),
          self).
Proof.
  unfold endian_swap. cbv [mbind M_bind get].
  repeat (destruct (_ =? _); [reflexivity|]). reflexivity.
Qed.

End branches.

(** ** Element access *)

(** C7: [read()] with the read cursor inside the buffer returns the element
    under the cursor and advances the cursor by exactly one; with the
    cursor at or past the end (so in particular on an empty buffer) it
    fails with BufferUnderflow and the buffer is left as it was. *)
Theorem read_advances_or_underflows (self : data_buffer) :
  ((rd_idx self < length (buf self))%nat →
     ∃ val, buf self !! rd_idx self = Some val
       ∧ read self
         = (Ok val, mk_data_buffer (width self) (buf self) (wr_idx self)
                      (rd_idx self + 1)))
  ∧ ((length (buf self) ≤ rd_idx self)%nat →
       read self = (Raise BufferUnderflow, self))
  ∧ (buf self = [] → read self = (Raise BufferUnderflow, self)).
Proof.
  destruct self as [w l wr rd]. cbn [width buf wr_idx rd_idx].
  set (self := mk_data_buffer w l wr rd).
  assert (Hpast : (length l ≤ rd)%nat →
                  read self = (Raise BufferUnderflow, self)).
  { intros Hge. unfold self, read, index. run.
    now rewrite (lookup_ge_None_2 _ _ Hge). }
  split; [|split].
  - intros Hlt. destruct (lookup_lt_is_Some_2 _ _ Hlt) as [val Hval].
    exists val. split; [assumption|].
    unfold self, read, index. run. now rewrite Hval.
  - exact Hpast.
  - intros Hnil. apply Hpast. rewrite Hnil. cbn. lia.
Qed.

Lemma read_advances_or_underflows_witness :
  read (mk_data_buffer 8 [5; 6] 2 0) = (Ok 5, mk_data_buffer 8 [5; 6] 2 1)
  ∧ read (mk_data_buffer 8 [5; 6] 2 2)
    = (Raise BufferUnderflow, mk_data_buffer 8 [5; 6] 2 2)
  ∧ read (__init__ 16 None) = (Raise BufferUnderflow, __init__ 16 None).
Proof.
  split; [|split].
  - destruct (proj1 (read_advances_or_underflows (mk_data_buffer 8 [5; 6] 2 0)))
      as (val & Hval & Hread); [cbn; lia|].
    cbn in Hval. injection Hval as <-. exact Hread.
  - apply (proj1 (proj2 (read_advances_or_underflows (mk_data_buffer 8 [5; 6] 2 2)))).
    cbn. lia.
  - apply (proj2 (proj2 (read_advances_or_underflows (__init__ 16 None)))). reflexivity.
Defined.

(** C5: [write(value)] stores [value mod 2^width].  With the write cursor at
    the end it appends and advances the cursor by one; with the cursor
    inside the buffer it overwrites the element under the cursor and
    leaves cursor and length as they were; with the cursor past the end
    it fails with BufferOverrun. *)
Theorem write_appends_or_overwrites (self : data_buffer) (value : Z) :
  0 <= width self →
  let masked := value mod 2 ^ width self in
  (wr_idx self = length (buf self) →
     write value self
     = (Ok tt, mk_data_buffer (width self) (buf self ++ [masked])
                 (wr_idx self + 1) (rd_idx self)))
  ∧ ((wr_idx self < length (buf self))%nat →
       write value self
       = (Ok tt, mk_data_buffer (width self)
                   (<[wr_idx self := masked]> (buf self))
                   (wr_idx self) (rd_idx self))
       ∧ <[wr_idx self := masked]> (buf self) !! wr_idx self = Some masked
       ∧ length (<[wr_idx self := masked]> (buf self)) = length (buf self))
  ∧ ((wr_idx self > length (buf self))%nat →
       write value self = (Raise BufferOverrun, self)).
Proof.
  intros Hw masked. destruct self as [w l wr rd].
  cbn [width buf wr_idx rd_idx] in *. unfold write. run.
  rewrite (mask_val_mod _ _ Hw). fold masked.
  split; [|split].
  - intros ->. now rewrite Nat.eqb_refl.
  - intros Hlt.
    destruct (Nat.eqb_spec wr (length l)); [lia|].
    destruct (Nat.ltb_spec wr (length l)); [|lia].
    split; [reflexivity|]. split.
    + now apply list_lookup_insert_eq.
    + apply length_insert.
  - intros Hgt.
    destruct (Nat.eqb_spec wr (length l)); [lia|].
    destruct (Nat.ltb_spec wr (length l)); [lia|].
    reflexivity.
Qed.

Lemma write_appends_or_overwrites_witness :
  write 0x1ff (mk_data_buffer 8 [1; 2] 2 0)
  = (Ok tt, mk_data_buffer 8 [1; 2; 0xff] 3 0)
  ∧ write 0x1ff (mk_data_buffer 8 [1; 2] 1 0)
    = (Ok tt, mk_data_buffer 8 [1; 0xff] 1 0)
  ∧ write 0x1ff (mk_data_buffer 8 [1; 2] 3 0)
    = (Raise BufferOverrun, mk_data_buffer 8 [1; 2] 3 0).
Proof.
  split; [|split].
  - apply (write_appends_or_overwrites (mk_data_buffer 8 [1; 2] 2 0) 0x1ff); cbn; [lia|reflexivity].
  - apply (write_appends_or_overwrites (mk_data_buffer 8 [1; 2] 1 0) 0x1ff); cbn; lia.
  - apply (write_appends_or_overwrites (mk_data_buffer 8 [1; 2] 3 0) 0x1ff); cbn; lia.
Defined.

(** ** Width conversion *)

(** C2: the 8-bit buffer [01 02 03 04] converts to 16 bits as [0201 0403]
    in little order and as [0102 0304] in big order; the odd-length
    [01 02 03] is padded with a zero at the end before grouping and
    converts, in little order, to [0201 0003]. *)
Theorem convert_8_16_scenarios :
  convert 16 "le" (__init__ 8 (Some [0x01; 0x02; 0x03; 0x04]))
  = (Ok tt, mk_data_buffer 16 [0x0201; 0x0403] 2 0)
  ∧ convert 16 "be" (__init__ 8 (Some [0x01; 0x02; 0x03; 0x04]))
    = (Ok tt, mk_data_buffer 16 [0x0102; 0x0304] 2 0)
  ∧ convert 16 "le" (__init__ 8 (Some [0x01; 0x02; 0x03]))
    = (Ok tt, mk_data_buffer 16 [0x0201; 0x0003] 2 0).
Proof. repeat split; reflexivity. Qed.

(** C4: whatever a 16-bit buffer holds, asking for 32 bits fails with
    UnsupportedConversion, and the buffer keeps its elements, its width
    and its cursors. *)
Theorem convert_16_32_unsupported (self : data_buffer) (mode : string) :
  width self = 16 →
  convert 32 mode self = (Raise UnsupportedConversion, self).
Proof. intros Hw. unfold convert. cbn [Z.eqb Pos.eqb]. now apply convert32_16. Qed.

Lemma convert_16_32_unsupported_witness :
  convert 32 "le" (mk_data_buffer 16 [0xbeef; 0x0001] 2 1)
  = (Raise UnsupportedConversion, mk_data_buffer 16 [0xbeef; 0x0001] 2 1).
Proof.
  apply (convert_16_32_unsupported (mk_data_buffer 16 [0xbeef; 0x0001] 2 1)).
  reflexivity.
Defined.

(** What a conversion along one of the five re-partitioning transitions
    leaves behind. *)
Lemma convert_transition (self : data_buffer) (w : Z) (mode : string) :
  transition (width self) w →
  ∃ l, convert w mode self = (Ok tt, mk_data_buffer w l (length l) 0).
Proof.
  intros Ht. unfold convert.
  inversion Ht as [H1 H2|H1 H2|H1 H2|H1 H2|H1 H2]; symmetry in H1;
    cbn [Z.eqb Pos.eqb]; eexists.
  - now apply convert16_8.
  - now apply convert32_8.
  - now apply convert8_16.
  - now apply convert8_32.
  - now apply convert16_32.
Qed.

(** The conversion of a width to itself does nothing at all. *)
Lemma convert_identity (self : data_buffer) (mode : string) :
  valid_width (width self) → convert (width self) mode self = (Ok tt, self).
Proof.
  intros [Hw|[Hw|Hw]]; rewrite Hw; unfold convert; cbn [Z.eqb Pos.eqb].
  - now apply convert8_8.
  - now apply convert16_16.
  - now apply convert32_32.
Qed.

(** C1, as stated, fails on the identity transition: an 8-bit buffer that
    has been read once and is converted to 8 bits keeps its read cursor
    at 1. *)
Lemma convert_identity_keeps_read_cursor :
  ¬ resets_cursors_along transition_or_identity.
Proof.
  intros H.
  destruct (H (read (__init__ 8 (Some [1; 2]))).2 8 "le")
    as (self' & Hrun & _ & Hrd & _).
  - right. split; [left|]; reflexivity.
  - cbv in Hrun. injection Hrun as <-. discriminate Hrd.
Qed.

(** C1, amended: after a conversion along one of the five transitions
    8→16, 8→32, 16→8, 32→8 and 32→16 the width is the target width, the
    read cursor is 0 and the write cursor is the new length; the
    conversion of a width to itself returns and leaves the buffer, both
    cursors included, exactly as it was. *)
Theorem convert_resets_cursors :
  resets_cursors_along transition
  ∧ ∀ (self : data_buffer) (mode : string),
      valid_width (width self) →
      convert (width self) mode self = (Ok tt, self).
Proof.
  split.
  - intros self w mode Ht.
    destruct (convert_transition self w mode Ht) as [l Hl].
    eexists. split; [exact Hl|]. repeat split.
  - exact convert_identity.
Qed.

Lemma convert_resets_cursors_witness :
  (∃ self', convert 16 "be" (mk_data_buffer 8 [1; 2; 3] 3 2) = (Ok tt, self')
     ∧ width self' = 16 ∧ rd_idx self' = 0%nat
     ∧ wr_idx self' = length (buf self'))
  ∧ convert 8 "be" (mk_data_buffer 8 [1; 2; 3] 3 2)
    = (Ok tt, mk_data_buffer 8 [1; 2; 3] 3 2).
Proof.
  split.
  - apply (proj1 convert_resets_cursors (mk_data_buffer 8 [1; 2; 3] 3 2)).
    constructor.
  - apply (proj2 convert_resets_cursors (mk_data_buffer 8 [1; 2; 3] 3 2)).
    left. reflexivity.
Defined.

(** Sequencing two method calls whose first one returns. *)
Lemma run_seq {A B} (m1 : M A) (m2 : M B) (self self1 : data_buffer) (a : A) :
  m1 self = (Ok a, self1) → (m1;; m2) self = m2 self1.
Proof. intros H. cbv [mbind M_bind]. now rewrite H. Qed.

Lemma in_range_bytes (self : data_buffer) :
  width self = 8 → in_range self → Forall byte (buf self).
Proof. unfold in_range. now intros ->. Qed.

(** C3: with one byte order throughout, 8→16→8 and 8→32→8 give back the
    original elements followed by the zero elements that were needed to
    bring the length up to a multiple of 2 (of 4), so exactly the original
    when the length was aligned; 32→8→32 and 32→16→8→32 give back exactly
    the original elements. *)
Theorem convert_round_trip (mode : string) (self : data_buffer) :
  in_range self →
  (width self = 8 →
     ∃ self', (convert 16 mode;; convert 8 mode) self = (Ok tt, self')
       ∧ width self' = 8
       ∧ buf self' = buf self ++ replicate (padding 2 (length (buf self))) 0
       ∧ ((length (buf self) mod 2 = 0)%nat → buf self' = buf self))
  ∧ (width self = 8 →
       ∃ self', (convert 32 mode;; convert 8 mode) self = (Ok tt, self')
         ∧ width self' = 8
         ∧ buf self' = buf self ++ replicate (padding 4 (length (buf self))) 0
         ∧ ((length (buf self) mod 4 = 0)%nat → buf self' = buf self))
  ∧ (width self = 32 →
       ∃ self', (convert 8 mode;; convert 32 mode) self = (Ok tt, self')
         ∧ width self' = 32 ∧ buf self' = buf self)
  ∧ (width self = 32 →
       ∃ self',
         (convert 16 mode;; convert 8 mode;; convert 32 mode) self
         = (Ok tt, self')
         ∧ width self' = 32 ∧ buf self' = buf self).
Proof.
  intros Hr. repeat split.
  - intros Hw. pose proof (in_range_bytes self Hw Hr) as Hb.
    destruct (padded_multiple 2 (length (buf self))) as (q & Hq & _); [lia|].
    assert (pairs mode (buf self ++ replicate (padding 2 (length (buf self))) 0)
              ≫= split16_8 mode
            = buf self ++ replicate (padding 2 (length (buf self))) 0) as Hrt.
    { apply (pairs_split mode q); [|now apply padded_bytes].
      now rewrite length_app, length_replicate. }
    eexists. split; [|split; [|split]].
    + unfold convert at 1. cbn [Z.eqb Pos.eqb].
      rewrite (run_seq _ _ _ _ _ (convert16_8 mode self Hw)).
      unfold convert. cbn [Z.eqb Pos.eqb]. now apply convert8_16.
    + reflexivity.
    + exact Hrt.
    + intros Ha. cbn [buf]. rewrite Hrt, (padding_aligned _ _ Ha).
      apply app_nil_r.
  - intros Hw. pose proof (in_range_bytes self Hw Hr) as Hb.
    destruct (padded_multiple 4 (length (buf self))) as (q & Hq & _); [lia|].
    assert (quads mode (buf self ++ replicate (padding 4 (length (buf self))) 0)
              ≫= split32_8 mode
            = buf self ++ replicate (padding 4 (length (buf self))) 0) as Hrt.
    { apply (quads_split mode q); [|now apply padded_bytes].
      now rewrite length_app, length_replicate. }
    eexists. split; [|split; [|split]].
    + unfold convert at 1. cbn [Z.eqb Pos.eqb].
      rewrite (run_seq _ _ _ _ _ (convert32_8 mode self Hw)).
      unfold convert. cbn [Z.eqb Pos.eqb]. now apply convert8_32.
    + reflexivity.
    + exact Hrt.
    + intros Ha. cbn [buf]. rewrite Hrt, (padding_aligned _ _ Ha).
      apply app_nil_r.
  - intros Hw. unfold in_range in Hr. rewrite Hw in Hr.
    eexists. split; [|split].
    + unfold convert at 1. cbn [Z.eqb Pos.eqb].
      rewrite (run_seq _ _ _ _ _ (convert8_32 mode self Hw)).
      unfold convert. cbn [Z.eqb Pos.eqb]. now apply convert32_8.
    + reflexivity.
    + cbn [buf]. rewrite length_bind_split32_8.
      rewrite (padding_aligned 4) by (rewrite Nat.mul_comm; apply Nat.Div0.mod_mul).
      rewrite app_nil_r. now apply quads_bind_split32_8.
  - intros Hw. unfold in_range in Hr. rewrite Hw in Hr.
    eexists. split; [|split].
    + unfold convert at 1. cbn [Z.eqb Pos.eqb].
      rewrite (run_seq _ _ _ _ _ (convert16_32 mode self Hw)).
      unfold convert at 1. cbn [Z.eqb Pos.eqb].
      erewrite run_seq by now apply convert8_16.
      unfold convert. cbn [Z.eqb Pos.eqb]. now apply convert32_8.
    + reflexivity.
    + cbn [buf]. rewrite bind_split32_16_then_8, length_bind_split32_8.
      rewrite (padding_aligned 4) by (rewrite Nat.mul_comm; apply Nat.Div0.mod_mul).
      rewrite app_nil_r. now apply quads_bind_split32_8.
Qed.

Lemma convert_round_trip_witness :
  (∃ self', (convert 16 "le";; convert 8 "le") (mk_data_buffer 8 [1; 2; 3] 3 1)
            = (Ok tt, self')
     ∧ buf self' = [1; 2; 3; 0])
  ∧ (∃ self', (convert 16 "be";; convert 8 "be";; convert 32 "be")
                (mk_data_buffer 32 [0x01020304; 0xfffefdfc] 2 0)
              = (Ok tt, self')
       ∧ buf self' = [0x01020304; 0xfffefdfc]).
Proof.
  split.
  - assert (Hr : in_range (mk_data_buffer 8 [1; 2; 3] 3 1))
      by (repeat constructor; cbn; lia).
    destruct (proj1 (convert_round_trip "le" _ Hr) eq_refl)
      as (self' & Hrun & _ & Hbuf & _).
    exists self'. split; [exact Hrun|exact Hbuf].
  - assert (Hr : in_range (mk_data_buffer 32 [0x01020304; 0xfffefdfc] 2 0))
      by (repeat constructor; cbn; lia).
    destruct (proj2 (proj2 (proj2 (convert_round_trip "be" _ Hr))) eq_refl)
      as (self' & Hrun & _ & Hbuf).
    exists self'. split; [exact Hrun|exact Hbuf].
Defined.

(** ** Endianness inversion *)

(** C10: [endian_swap()] leaves both cursors exactly as they were, and for
    the widths 8, 16 and 32 it returns. *)
Theorem endian_swap_cursors (self : data_buffer) :
  wr_idx (endian_swap self).2 = wr_idx self
  ∧ rd_idx (endian_swap self).2 = rd_idx self
  ∧ (valid_width (width self) → (endian_swap self).1 = Ok tt).
Proof.
  rewrite endian_swap_unfold.
  destruct (Z.eqb_spec (width self) 32) as [H32|H32];
    [|destruct (Z.eqb_spec (width self) 16) as [H16|H16];
      [|destruct (Z.eqb_spec (width self) 8) as [H8|H8]]];
    (split; [reflexivity|split; [reflexivity|]]); try reflexivity.
  unfold valid_width. lia.
Qed.

Lemma endian_swap_cursors_witness :
  (endian_swap (mk_data_buffer 16 [0x0102; 0x0304] 2 1)).1 = Ok tt.
Proof.
  apply (proj2 (proj2 (endian_swap_cursors
                         (mk_data_buffer 16 [0x0102; 0x0304] 2 1)))).
  right. left. reflexivity.
Defined.

Lemma map_involutive {A} (f : A → A) (P : A → Prop) (l : list A) :
  (∀ x, P x → f (f x) = x) → Forall P l → map f (map f l) = l.
Proof.
  intros Hf. induction 1 as [|x l Hx _ IH]; [reflexivity|].
  cbn. now rewrite Hf, IH.
Qed.

(** C8: [endian_swap()] never changes the number of elements or the width;
    on an 8-bit buffer it does nothing; applied twice to a buffer of width
    8, 16 or 32 whose elements are in the range of the width, it gives
    every element its original value back. *)
Theorem endian_swap_twice (self : data_buffer) :
  (length (buf (endian_swap self).2) = length (buf self)
   ∧ width (endian_swap self).2 = width self)
  ∧ (width self = 8 → endian_swap self = (Ok tt, self))
  ∧ (valid_width (width self) → in_range self →
       (endian_swap;; endian_swap) self = (Ok tt, self)).
Proof.
  split; [|split].
  - rewrite endian_swap_unfold.
    repeat (destruct (_ =? _)); cbn [snd buf width set_buf];
      rewrite ?length_map; split; reflexivity.
  - intros Hw. rewrite endian_swap_unfold, Hw. now destruct self.
  - unfold in_range. destruct self as [w l wr rd]. cbn [width buf].
    intros [->|[->| ->]] Hr.
    + reflexivity.
    + erewrite run_seq by (rewrite endian_swap_unfold; reflexivity).
      rewrite endian_swap_unfold. cbn [width buf set_buf Z.eqb Pos.eqb].
      now rewrite (map_involutive _ _ _ swap16_involutive Hr).
    + erewrite run_seq by (rewrite endian_swap_unfold; reflexivity).
      rewrite endian_swap_unfold. cbn [width buf set_buf Z.eqb Pos.eqb].
      now rewrite (map_involutive _ _ _ swap32_involutive Hr).
Qed.

Lemma endian_swap_twice_witness :
  endian_swap (mk_data_buffer 8 [1; 2] 2 0)
  = (Ok tt, mk_data_buffer 8 [1; 2] 2 0)
  ∧ (endian_swap;; endian_swap) (mk_data_buffer 32 [0x01020304; 7] 2 1)
    = (Ok tt, mk_data_buffer 32 [0x01020304; 7] 2 1).
Proof.
  split.
  - apply (proj1 (proj2 (endian_swap_twice (mk_data_buffer 8 [1; 2] 2 0)))).
    reflexivity.
  - apply (proj2 (proj2 (endian_swap_twice
                           (mk_data_buffer 32 [0x01020304; 7] 2 1)))).
    + right. right. reflexivity.
    + repeat constructor; cbn; lia.
Defined.

(** ** The masked-range invariant *)

Section invariant.

Implicit Types (self : data_buffer) (mode : string).

Lemma init_well_formed (w : Z) (data : option (list Z)) :
  0 <= w → well_formed (__init__ w data).
Proof.
  intros Hw. split; [exact Hw|]. unfold in_range, __init__. cbn [width buf].
  destruct data as [[|x data]|]; try constructor.
  - fold (util.mask_val x w). rewrite mask_val_mod by assumption.
    apply Z.mod_pos_bound. lia.
  - apply List.Forall_map, Forall_forall. intros y _.
    fold (util.mask_val y w). rewrite mask_val_mod by assumption.
    apply Z.mod_pos_bound. lia.
Qed.

Lemma read_well_formed self : well_formed self → well_formed (read self).2.
Proof.
  destruct self as [w l wr rd]. unfold read, index. run.
  now destruct (l !! rd).
Qed.

Lemma write_well_formed self (val : Z) :
  well_formed self → well_formed (write val self).2.
Proof.
  destruct self as [w l wr rd]. intros [Hw Hr]. cbn [width] in Hw.
  unfold in_range in Hr. cbn [width buf] in Hr.
  assert (Hv : 0 <= util.mask_val val w < 2 ^ w).
  { rewrite mask_val_mod by assumption. apply Z.mod_pos_bound. lia. }
  unfold write. run.
  destruct (wr =? length l)%nat; [|destruct (wr <? length l)%nat];
    (split; [exact Hw|]); unfold in_range; cbn [snd width buf].
  - apply Forall_app. split; [assumption|]. now constructor.
  - now apply Forall_insert.
  - assumption.
Qed.

Lemma bind_range {A} (P : Z → Prop) (f : A → list Z) (l : list A) :
  (∀ x, Forall P (f x)) → Forall P (l ≫= f).
Proof. intros Hf. apply Forall_bind, Forall_forall. intros x _. apply Hf. Qed.

Lemma convert8_well_formed mode self :
  well_formed self → well_formed (convert8 mode self).2.
Proof.
  intros Hwf.
  destruct (decide (width self = 32)) as [H32|H32];
    [|destruct (decide (width self = 16)) as [H16|H16];
      [|destruct (decide (width self = 8)) as [H8|H8]]].
  - rewrite convert8_32 by assumption. split; [cbn; lia|].
    apply bind_range, split32_8_range.
  - rewrite convert8_16 by assumption. split; [cbn; lia|].
    apply bind_range, split16_8_range.
  - now rewrite convert8_8.
  - rewrite convert8_other; [assumption|]. unfold valid_width. lia.
Qed.

Lemma convert16_well_formed mode self :
  well_formed self → well_formed (convert16 mode self).2.
Proof.
  intros Hwf.
  destruct (decide (width self = 32)) as [H32|H32];
    [|destruct (decide (width self = 16)) as [H16|H16];
      [|destruct (decide (width self = 8)) as [H8|H8]]].
  - rewrite convert16_32 by assumption. split; [cbn; lia|].
    apply bind_range, split32_16_range.
  - now rewrite convert16_16.
  - rewrite convert16_8 by assumption. split; [cbn; lia|].
    destruct (padded_multiple 2 (length (buf self))) as (q & Hq & _); [lia|].
    apply (pairs_range mode q).
    + now rewrite length_app, length_replicate.
    + apply padded_bytes, in_range_bytes; [assumption|apply Hwf].
  - rewrite convert16_other; [assumption|]. unfold valid_width. lia.
Qed.

Lemma convert32_well_formed mode self :
  well_formed self → well_formed (convert32 mode self).2.
Proof.
  intros Hwf.
  destruct (decide (width self = 32)) as [H32|H32];
    [|destruct (decide (width self = 16)) as [H16|H16];
      [|destruct (decide (width self = 8)) as [H8|H8]]].
  - now rewrite convert32_32.
  - now rewrite convert32_16.
  - rewrite convert32_8 by assumption. split; [cbn; lia|].
    destruct (padded_multiple 4 (length (buf self))) as (q & Hq & _); [lia|].
    apply (quads_range mode q).
    + now rewrite length_app, length_replicate.
    + apply padded_bytes, in_range_bytes; [assumption|apply Hwf].
  - rewrite convert32_other; [assumption|]. unfold valid_width. lia.
Qed.

Lemma convert_well_formed (w : Z) mode self :
  well_formed self → well_formed (convert w mode self).2.
Proof.
  intros Hwf. unfold convert.
  destruct (w =? 8); [now apply convert8_well_formed|].
  destruct (w =? 16); [now apply convert16_well_formed|].
  destruct (w =? 32); [now apply convert32_well_formed|].
  exact Hwf.
Qed.

Lemma endian_swap_well_formed self :
  well_formed self → well_formed (endian_swap self).2.
Proof.
  intros [Hw Hr]. rewrite endian_swap_unfold.
  destruct (Z.eqb_spec (width self) 32) as [H32|H32];
    [|destruct (Z.eqb_spec (width self) 16) as [H16|H16];
      [|destruct (width self =? 8)]]; try (split; assumption).
  - split; [exact Hw|]. unfold in_range. cbn [snd set_buf width buf].
    rewrite H32. apply List.Forall_map, Forall_forall. intros x _.
    apply swap32_range.
  - split; [exact Hw|]. unfold in_range. cbn [snd set_buf width buf].
    rewrite H16. apply List.Forall_map, Forall_forall. intros x _.
    apply swap16_range.
Qed.

Lemma reachable_well_formed self : reachable self → well_formed self.
Proof.
  induction 1 as [w data Hw|self _ IH|self _ IH|self val _ IH
                 |self w mode _ IH|self _ IH].
  - now apply init_well_formed.
  - apply init_well_formed, IH.
  - now apply read_well_formed.
  - now apply write_well_formed.
  - now apply convert_well_formed.
  - now apply endian_swap_well_formed.
Qed.

End invariant.

(** C6: every element of a buffer obtained from the constructor (which
    masks the initial values one by one) through [read], [write],
    [convert], [endian_swap] and [copy] lies in [0, 2^width) for the
    width the buffer has at that point. *)
Theorem reachable_in_range (self : data_buffer) :
  reachable self → ∀ e, e ∈ buf self → 0 <= e < 2 ^ width self.
Proof.
  intros Hreach. apply Forall_forall. fold (in_range self).
  now apply reachable_well_formed.
Qed.

Lemma reachable_in_range_witness :
  0 <= 0x0102 < 2 ^ 16.
Proof.
  apply (reachable_in_range
           (convert 16 "le" (write 0x301 (__init__ 8 (Some [0x102]))).2).2).
  - apply reach_convert, reach_write, reach_init. lia.
  - vm_compute. left.
Defined.

(** ** Hashing *)

Section hashing_frame.

Context (hexdigest : string → string).

Implicit Types (self : data_buffer) (mode : string).

Lemma join_chr_bytes (l : list Z) :
  Forall byte l → ∃ s, join_chr l = Ok s.
Proof.
  induction 1 as [|b l Hb _ [s IH]]; [now exists EmptyString|].
  exists (String (ascii_of_N (Z.to_N b)) s). cbn [join_chr]. unfold chr.
  unfold byte in Hb. change (2 ^ 8) with 256 in Hb.
  destruct (Z.leb_spec 0 b); [|lia]. destruct (Z.ltb_spec b 256); [|lia].
  cbn [andb mbind outcome_bind]. now rewrite IH.
Qed.

Lemma md5_copy_bytes mode self :
  valid_width (width self) →
  ∃ x, convert8 mode (copy self) = (Ok tt, x) ∧ Forall byte (buf x).
Proof.
  intros Hw.
  assert (Hwf : well_formed (copy self)).
  { apply init_well_formed. destruct Hw as [->|[->| ->]]; lia. }
  assert (Hcw : width (copy self) = width self) by reflexivity.
  destruct Hw as [Hw|[Hw|Hw]]; rewrite Hw in Hcw; eexists.
  - split; [now apply convert8_8|]. now apply in_range_bytes; [|apply Hwf].
  - split; [now apply convert8_16|]. apply bind_range, split16_8_range.
  - split; [now apply convert8_32|]. apply bind_range, split32_8_range.
Qed.

(** C9: [md5] leaves the object it is called on untouched (width,
    elements and both cursors); its outcome depends on the width and
    the elements only, not on the cursors, so reading before hashing
    changes nothing; and on a buffer of width 8, 16 or 32 it returns a
    digest. *)
Theorem md5_frame mode self :
  (md5 hexdigest mode self).2 = self
  ∧ (∀ wr rd : nat,
       (md5 hexdigest mode
          (mk_data_buffer (width self) (buf self) wr rd)).1
       = (md5 hexdigest mode self).1)
  ∧ (md5 hexdigest mode (read self).2).1 = (md5 hexdigest mode self).1
  ∧ (valid_width (width self) →
       ∃ digest, (md5 hexdigest mode self).1 = Ok digest).
Proof.
  split; [|split; [|split]].
  - unfold md5.
    destruct (convert8 mode (copy self)) as [[[]|e] x]; [|reflexivity].
    now destruct (join_chr (buf x)).
  - intros wr rd. destruct self as [w l wr0 rd0].
    unfold md5, copy. cbn [width buf].
    destruct (convert8 mode (__init__ w (Some l))) as [[[]|e] x];
      [|reflexivity].
    now destruct (join_chr (buf x)).
  - destruct self as [w l wr rd].
    assert (Hread : ∃ rd', (read (mk_data_buffer w l wr rd)).2
                           = mk_data_buffer w l wr rd').
    { unfold read, index. run. destruct (l !! rd); now eexists. }
    destruct Hread as [rd' ->].
    unfold md5, copy. cbn [width buf].
    destruct (convert8 mode (__init__ w (Some l))) as [[[]|e] x];
      [|reflexivity].
    now destruct (join_chr (buf x)).
  - intros Hw. destruct (md5_copy_bytes mode self Hw) as (x & Hx & Hb).
    destruct (join_chr_bytes _ Hb) as [s Hs].
    exists (hexdigest s). unfold md5. now rewrite Hx, Hs.
Qed.

End hashing_frame.

Lemma md5_frame_witness :
  ∃ digest,
    (md5 (λ s, s) "be" (mk_data_buffer 16 [0x4142; 0x4344] 2 1)).1 = Ok digest.
Proof.
  apply (proj2 (proj2 (proj2 (md5_frame (λ s, s) "be"
                                (mk_data_buffer 16 [0x4142; 0x4344] 2 1))))).
  right. left. reflexivity.
Defined.

(** ** Comparison *)

Lemma range_from_step (fuel start stop : nat) :
  (start < stop)%nat →
  range_from (S fuel) start stop 1 = start :: range_from fuel (start + 1) stop 1.
Proof.
  intros Hlt. cbn [range_from].
  destruct (Nat.ltb_spec start stop); [reflexivity|lia].
Qed.

Lemma range_from_done (fuel stop step : nat) :
  range_from fuel stop stop step = [].
Proof. destruct fuel; cbn [range_from]; [reflexivity|]. now rewrite Nat.ltb_irrefl. Qed.

(** The loop of [compare] over two lists of one length: it never runs off
    either list, and it answers whether the parts not yet visited agree. *)
Lemma compare_elements_spec : ∀ (l1 l2 pre1 pre2 : list Z) (fuel : nat),
  length pre1 = length pre2 → length l1 = length l2 →
  (length l1 ≤ fuel)%nat →
  compare_elements (pre1 ++ l1) (pre2 ++ l2)
    (range_from fuel (length pre1) (length (pre1 ++ l1)) 1)
  = Ok (bool_decide (l1 = l2)).
Proof.
  induction l1 as [|a l1 IH]; intros l2 pre1 pre2 fuel Hpre Hlen Hfuel.
  - destruct l2; [|discriminate]. rewrite !app_nil_r, range_from_done.
    reflexivity.
  - destruct l2 as [|b l2]; [discriminate|].
    destruct fuel as [|fuel]; [cbn in Hfuel; lia|].
    rewrite range_from_step by (rewrite length_app; cbn; lia).
    cbn [compare_elements]. rewrite index_middle.
    assert (Hb : index (pre2 ++ b :: l2) (length pre1) = Ok b)
      by (rewrite Hpre; apply index_middle).
    rewrite Hb.
    cbn [mbind outcome_bind].
    destruct (Z.eqb_spec a b) as [->|Hab]; cbn [negb].
    + replace (pre1 ++ b :: l1) with ((pre1 ++ [b]) ++ l1)
        by now rewrite <- app_assoc.
      replace (pre2 ++ b :: l2) with ((pre2 ++ [b]) ++ l2)
        by now rewrite <- app_assoc.
      replace (length pre1 + 1)%nat with (length (pre1 ++ [b]))
        by (rewrite length_app; reflexivity).
      rewrite IH.
      * f_equal. apply bool_decide_ext. split; [now intros ->|].
        now intros [= ->].
      * rewrite !length_app. cbn. lia.
      * cbn in Hlen. lia.
      * cbn in Hfuel. lia.
    + f_equal. symmetry. apply bool_decide_eq_false. now intros [= ? ?].
Qed.

Lemma compare_reflects (self x : data_buffer) :
  compare self x
  = Ok (bool_decide (width self = width x ∧ buf self = buf x)).
Proof.
  unfold compare.
  destruct (Z.eqb_spec (width self) (width x)) as [Hw|Hw]; cbn [negb].
  2:{ f_equal. symmetry. apply bool_decide_eq_false. tauto. }
  destruct (Nat.eqb_spec (length (buf self)) (length (buf x))) as [Hl|Hl];
    cbn [negb].
  2:{ f_equal. symmetry. apply bool_decide_eq_false.
      intros [_ Hb]. now rewrite Hb in Hl. }
  unfold py_range.
  pose proof (compare_elements_spec (buf self) (buf x) [] []
                (length (buf self)) eq_refl Hl (Nat.le_refl _)) as Hloop.
  cbn [app length] in Hloop. rewrite Hloop.
  f_equal. apply bool_decide_ext. tauto.
Qed.

(** X2: [compare] never fails; it answers [True] exactly when the two
    buffers have the same width and the same elements in the same order,
    whatever their cursors are. *)
Theorem compare_decides_equality (self x : data_buffer) :
  compare self x
  = Ok (bool_decide (width self = width x ∧ buf self = buf x)).
Proof. apply compare_reflects. Qed.

Lemma land_mask_in_range (w x : Z) :
  0 <= w → 0 <= x < 2 ^ w → Z.land x (util.mask w) = x.
Proof.
  intros Hw Hx. fold (util.mask_val x w).
  rewrite mask_val_mod by assumption. now apply Z.mod_small.
Qed.

Lemma copy_well_formed (self : data_buffer) :
  well_formed self →
  copy self = mk_data_buffer (width self) (buf self) (length (buf self)) 0.
Proof.
  destruct self as [w l wr rd]. intros [Hw Hr]. cbn [width] in Hw.
  unfold in_range in Hr. cbn [width buf] in Hr.
  unfold copy, __init__. cbn [width buf].
  assert (Hmap : map (λ x, Z.land x (util.mask w)) l = l).
  { induction Hr as [|x l Hx _ IH]; [reflexivity|].
    cbn [map]. now rewrite IH, land_mask_in_range. }
  destruct l as [|x l]; [reflexivity|]. now rewrite Hmap.
Qed.

(** X3: a buffer with a non-negative width whose elements are in the
    range of that width compares equal to its copy, and the copy has
    both cursors at their defaults: the write cursor at the end and the
    read cursor at 0. *)
Theorem compare_copy (self : data_buffer) :
  0 <= width self → in_range self →
  compare self (copy self) = Ok true
  ∧ wr_idx (copy self) = length (buf (copy self))
  ∧ rd_idx (copy self) = 0%nat.
Proof.
  intros Hw Hr. rewrite compare_reflects.
  rewrite (copy_well_formed self (conj Hw Hr)). cbn [width buf wr_idx rd_idx].
  split; [|split; reflexivity].
  f_equal. apply bool_decide_eq_true. split; reflexivity.
Qed.

Lemma compare_copy_witness :
  compare (mk_data_buffer 16 [0x1234; 0xffff] 2 1)
          (copy (mk_data_buffer 16 [0x1234; 0xffff] 2 1)) = Ok true.
Proof.
  apply (compare_copy (mk_data_buffer 16 [0x1234; 0xffff] 2 1)).
  - cbn. lia.
  - repeat constructor; cbn; lia.
Defined.

(** ** Cursors *)

(** X4: on a buffer with a non-negative width whose two cursors are both
    at the end (a new empty buffer, for one), [write(value)] followed by
    [read()] returns [value mod 2^width], and leaves both cursors at the
    new end. *)
Theorem write_then_read (self : data_buffer) (value : Z) :
  0 <= width self →
  wr_idx self = length (buf self) → rd_idx self = length (buf self) →
  (write value;; read) self
  = (Ok (value mod 2 ^ width self),
     mk_data_buffer (width self) (buf self ++ [value mod 2 ^ width self])
       (length (buf self) + 1) (length (buf self) + 1)).
Proof.
  destruct self as [w l wr rd]. cbn [width buf wr_idx rd_idx].
  intros Hw -> ->. unfold write, read, index. run.
  rewrite Nat.eqb_refl, list_lookup_middle by reflexivity.
  now rewrite mask_val_mod.
Qed.

Lemma write_then_read_witness :
  (write 0x12345;; read) (__init__ 16 None)
  = (Ok 0x2345, mk_data_buffer 16 [0x2345] 1 1).
Proof.
  apply (write_then_read (__init__ 16 None) 0x12345); cbn; [lia|reflexivity..].
Defined.

(** Whatever the widths, a conversion either leaves the object as it was
    or leaves new elements with both cursors reset. *)
Lemma convert_unchanged_or_reset (w : Z) (mode : string) (self : data_buffer) :
  (convert w mode self).2 = self
  ∨ ∃ w' l, (convert w mode self).2 = mk_data_buffer w' l (length l) 0.
Proof.
  unfold convert.
  destruct (w =? 8); [|destruct (w =? 16); [|destruct (w =? 32)]];
    [..|now left];
    (destruct (decide (width self = 32)) as [H32|H32];
      [|destruct (decide (width self = 16)) as [H16|H16];
        [|destruct (decide (width self = 8)) as [H8|H8]]]).
  - right. rewrite convert8_32 by assumption. now eexists _, _.
  - right. rewrite convert8_16 by assumption. now eexists _, _.
  - left. now rewrite convert8_8.
  - left. rewrite convert8_other; [reflexivity|]. unfold valid_width. lia.
  - right. rewrite convert16_32 by assumption. now eexists _, _.
  - left. now rewrite convert16_16.
  - right. rewrite convert16_8 by assumption. now eexists _, _.
  - left. rewrite convert16_other; [reflexivity|]. unfold valid_width. lia.
  - left. now rewrite convert32_32.
  - left. now rewrite convert32_16.
  - right. rewrite convert32_8 by assumption. now eexists _, _.
  - left. rewrite convert32_other; [reflexivity|]. unfold valid_width. lia.
Qed.

Lemma reachable_cursors (self : data_buffer) :
  reachable self →
  wr_idx self = length (buf self) ∧ (rd_idx self ≤ length (buf self))%nat.
Proof.
  induction 1 as [w data Hw|self _ IH|self _ IH|self val _ IH
                 |self w mode _ IH|self _ IH].
  - cbn. lia.
  - cbn. lia.
  - destruct self as [w l wr rd]. cbn [wr_idx rd_idx buf] in IH.
    unfold read, index. run.
    destruct (l !! rd) eqn:E; cbn [snd wr_idx rd_idx buf]; [|exact IH].
    apply lookup_lt_Some in E. lia.
  - destruct self as [w l wr rd]. cbn [wr_idx rd_idx buf] in IH.
    destruct IH as [-> Hrd]. unfold write. run. rewrite Nat.eqb_refl.
    cbn [snd wr_idx rd_idx buf]. rewrite length_app. cbn [length]. lia.
  - destruct (convert_unchanged_or_reset w mode self) as [->|(w' & l & ->)];
      [exact IH|]. cbn. lia.
  - rewrite endian_swap_unfold.
    repeat (destruct (_ =? _)); cbn [snd set_buf wr_idx rd_idx buf];
      rewrite ?length_map; exact IH.
Qed.

(** X5: for every buffer obtained from the constructor through [copy],
    [read], [write], [convert] and [endian_swap], the write cursor is at
    the end of the elements and the read cursor is not past it; so
    [write] on such a buffer always appends the masked value and never
    overwrites an element or fails with BufferOverrun. *)
Theorem reachable_write_appends (self : data_buffer) (value : Z) :
  reachable self →
  wr_idx self = length (buf self)
  ∧ (rd_idx self ≤ length (buf self))%nat
  ∧ write value self
    = (Ok tt, mk_data_buffer (width self)
                (buf self ++ [util.mask_val value (width self)])
                (length (buf self) + 1) (rd_idx self)).
Proof.
  intros Hreach. destruct (reachable_cursors self Hreach) as [Hwr Hrd].
  split; [exact Hwr|]. split; [exact Hrd|].
  destruct self as [w l wr rd]. cbn [wr_idx rd_idx buf width] in *. subst wr.
  unfold write. run. now rewrite Nat.eqb_refl.
Qed.

Lemma reachable_write_appends_witness :
  write 0x1ff (read (convert 8 "le" (__init__ 16 (Some [0x0102]))).2).2
  = (Ok tt, mk_data_buffer 8 [2; 1; 0xff] 3 1).
Proof.
  apply (reachable_write_appends
           (read (convert 8 "le" (__init__ 16 (Some [0x0102]))).2).2 0x1ff).
  apply reach_read, reach_convert, reach_init. lia.
Defined.

(** ** More on conversions *)

Lemma length_bind_split16_8 (mode : string) (l : list Z) :
  length (l ≫= split16_8 mode) = (2 * length l)%nat.
Proof.
  induction l as [|x l IH]; [reflexivity|].
  rewrite bind_cons, length_app, IH. unfold split16_8.
  destruct (String.eqb mode "be"); cbn [length]; lia.
Qed.

Lemma length_bind_split32_16 (mode : string) (l : list Z) :
  length (l ≫= split32_16 mode) = (2 * length l)%nat.
Proof.
  induction l as [|x l IH]; [reflexivity|].
  rewrite bind_cons, length_app, IH. unfold split32_16.
  destruct (String.eqb mode "be"); cbn [length]; lia.
Qed.

Lemma length_pairs (mode : string) : ∀ (k : nat) (l : list Z),
  length l = (2 * k)%nat → length (pairs mode l) = k.
Proof.
  induction k as [|k IH]; intros l Hl.
  - now destruct l.
  - destruct l as [|b0 [|b1 l]]; cbn in Hl; try lia.
    cbn [pairs length]. f_equal. apply IH. lia.
Qed.

Lemma length_quads (mode : string) : ∀ (k : nat) (l : list Z),
  length l = (4 * k)%nat → length (quads mode l) = k.
Proof.
  induction k as [|k IH]; intros l Hl.
  - now destruct l.
  - destruct l as [|b0 [|b1 [|b2 [|b3 l]]]]; cbn in Hl; try lia.
    cbn [quads length]. f_equal. apply IH. lia.
Qed.

(** X6: a conversion keeps the number of bits, rounded up to the target
    width.  Narrowing multiplies the number of elements by the ratio of
    the widths (32→8 by 4, 32→16 and 16→8 by 2); widening from 8 bits
    yields as many elements as the zero-padded byte count holds groups:
    twice the new length is the old length plus its padding to a multiple
    of 2 (8→16), four times the new length is the old length plus its
    padding to a multiple of 4 (8→32). *)
Theorem convert_length (mode : string) (self : data_buffer) :
  (width self = 32 →
     __len__ (convert 8 mode self).2 = (4 * __len__ self)%nat
     ∧ __len__ (convert 16 mode self).2 = (2 * __len__ self)%nat)
  ∧ (width self = 16 →
       __len__ (convert 8 mode self).2 = (2 * __len__ self)%nat)
  ∧ (width self = 8 →
       (2 * __len__ (convert 16 mode self).2
        = __len__ self + padding 2 (__len__ self))%nat
       ∧ (4 * __len__ (convert 32 mode self).2
          = __len__ self + padding 4 (__len__ self))%nat).
Proof.
  unfold __len__, convert. cbn [Z.eqb Pos.eqb].
  split; [intros Hw; split|split; [intros Hw|intros Hw; split]].
  - rewrite convert8_32 by assumption. apply length_bind_split32_8.
  - rewrite convert16_32 by assumption. apply length_bind_split32_16.
  - rewrite convert8_16 by assumption. apply length_bind_split16_8.
  - rewrite convert16_8 by assumption. cbn [snd buf].
    destruct (padded_multiple 2 (length (buf self))) as (q & Hq & _); [lia|].
    rewrite (length_pairs mode q); [lia|].
    now rewrite length_app, length_replicate.
  - rewrite convert32_8 by assumption. cbn [snd buf].
    destruct (padded_multiple 4 (length (buf self))) as (q & Hq & _); [lia|].
    rewrite (length_quads mode q); [lia|].
    now rewrite length_app, length_replicate.
Qed.

Lemma convert_length_witness :
  Nat.mul 2 (__len__ (convert 16 "le" (mk_data_buffer 8 [1; 2; 3] 3 0)).2)
  = Nat.add 3 1.
Proof.
  apply (proj2 (proj2 (convert_length "le" (mk_data_buffer 8 [1; 2; 3] 3 0)))).
  reflexivity.
Defined.

Lemma join16_split16_8 (mode : string) (x : Z) (l : list Z) :
  0 <= x < 2 ^ 16 →
  pairs mode (split16_8 mode x ++ l) = x :: pairs mode l.
Proof.
  intros. unfold split16_8.
  destruct (String.eqb mode "be") eqn:E; cbn [app pairs]; f_equal;
    unfold join16; rewrite E; bits.
Qed.

Lemma pairs_bind_split16_8 (mode : string) (l : list Z) :
  Forall (λ e, 0 <= e < 2 ^ 16) l → pairs mode (l ≫= split16_8 mode) = l.
Proof.
  induction 1 as [|x l Hx _ IH]; [reflexivity|].
  rewrite bind_cons, join16_split16_8 by assumption. now rewrite IH.
Qed.

(** X7: a 16-bit buffer whose elements are in range, converted to 8 bits
    and back to 16 bits with the same byte order, has its original
    elements again. *)
Theorem convert_16_8_16 (mode : string) (self : data_buffer) :
  width self = 16 → in_range self →
  ∃ self', (convert 8 mode;; convert 16 mode) self = (Ok tt, self')
    ∧ width self' = 16 ∧ buf self' = buf self.
Proof.
  intros Hw Hr. unfold in_range in Hr. rewrite Hw in Hr.
  eexists. split; [|split].
  - unfold convert at 1. cbn [Z.eqb Pos.eqb].
    rewrite (run_seq _ _ _ _ _ (convert8_16 mode self Hw)).
    unfold convert. cbn [Z.eqb Pos.eqb]. now apply convert16_8.
  - reflexivity.
  - cbn [buf]. rewrite length_bind_split16_8.
    rewrite (padding_aligned 2)
      by (rewrite Nat.mul_comm; apply Nat.Div0.mod_mul).
    rewrite app_nil_r. now apply pairs_bind_split16_8.
Qed.

Lemma convert_16_8_16_witness :
  ∃ self', (convert 8 "be";; convert 16 "be")
             (mk_data_buffer 16 [0x0102; 0xfffe; 7] 3 2) = (Ok tt, self')
    ∧ width self' = 16 ∧ buf self' = [0x0102; 0xfffe; 7].
Proof.
  apply (convert_16_8_16 "be" (mk_data_buffer 16 [0x0102; 0xfffe; 7] 3 2)).
  - reflexivity.
  - repeat constructor; cbn; lia.
Defined.

(** X8: narrowing from 32 to 16 bits cannot be undone in one step: on a
    32-bit buffer, [convert(16, ...)] followed by [convert(32, ...)]
    fails with UnsupportedConversion, and what is left is the 16-bit
    buffer the first conversion produced. *)
Theorem convert_32_16_32_fails (mode mode' : string) (self : data_buffer) :
  width self = 32 →
  ∃ self', convert 16 mode self = (Ok tt, self')
    ∧ width self' = 16
    ∧ (convert 16 mode;; convert 32 mode') self
      = (Raise UnsupportedConversion, self').
Proof.
  intros Hw. eexists. split; [|split].
  - unfold convert. cbn [Z.eqb Pos.eqb]. now apply convert16_32.
  - reflexivity.
  - unfold convert at 1. cbn [Z.eqb Pos.eqb].
    rewrite (run_seq _ _ _ _ _ (convert16_32 mode self Hw)).
    unfold convert. cbn [Z.eqb Pos.eqb]. now apply convert32_16.
Qed.

Lemma convert_32_16_32_fails_witness :
  (convert 16 "le";; convert 32 "le") (mk_data_buffer 32 [0x01020304] 1 0)
  = (Raise UnsupportedConversion, mk_data_buffer 16 [0x0304; 0x0102] 2 0).
Proof.
  destruct (convert_32_16_32_fails "le" "le"
              (mk_data_buffer 32 [0x01020304] 1 0) eq_refl)
    as (self' & Hfirst & _ & Hboth).
  cbv in Hfirst. injection Hfirst as <-. exact Hboth.
Defined.

(** X9: [convert] to a width other than 8, 16 and 32 fails with the
    assertion 'bad width'; a buffer whose own width is not 8, 16 or 32
    can neither be converted to one of them nor swapped: both fail with
    an assertion naming the width.  In every case the buffer is left as
    it was. *)
Theorem bad_width_fails (w : Z) (mode : string) (self : data_buffer) :
  (¬ valid_width w →
     convert w mode self = (Raise (AssertionError "bad width"), self))
  ∧ (valid_width w → ¬ valid_width (width self) →
       convert w mode self = (Raise (conversion_error (width self)), self))
  ∧ (¬ valid_width (width self) →
       endian_swap self
       = (Raise (AssertionError
                   ("endian swap error: width " +:+ pretty (width self))),
          self)).
Proof.
  unfold valid_width. split; [|split].
  - intros Hw. unfold convert.
    destruct (Z.eqb_spec w 8); [lia|]. destruct (Z.eqb_spec w 16); [lia|].
    destruct (Z.eqb_spec w 32); [lia|]. reflexivity.
  - intros [->|[->| ->]] Hs; unfold convert; cbn [Z.eqb Pos.eqb].
    + now apply convert8_other.
    + now apply convert16_other.
    + now apply convert32_other.
  - intros Hs. rewrite endian_swap_unfold.
    destruct (Z.eqb_spec (width self) 32); [lia|].
    destruct (Z.eqb_spec (width self) 16); [lia|].
    destruct (Z.eqb_spec (width self) 8); [lia|]. reflexivity.
Qed.

Lemma bad_width_fails_witness :
  convert 24 "le" (mk_data_buffer 8 [1] 1 0)
  = (Raise (AssertionError "bad width"), mk_data_buffer 8 [1] 1 0)
  ∧ convert 8 "le" (mk_data_buffer 12 [1] 1 0)
    = (Raise (conversion_error 12), mk_data_buffer 12 [1] 1 0).
Proof.
  split.
  - apply (proj1 (bad_width_fails 24 "le" (mk_data_buffer 8 [1] 1 0))).
    unfold valid_width. lia.
  - apply (proj1 (proj2 (bad_width_fails 8 "le" (mk_data_buffer 12 [1] 1 0)))).
    + left. reflexivity.
    + unfold valid_width. cbn. lia.
Defined.

(** X10: the conversions test the byte order against ['be'] only: with
    any other string, ['le'] or not, [convert] behaves exactly as with
    ['le']. *)
Theorem convert_mode_default (w : Z) (mode : string) (self : data_buffer) :
  mode ≠ "be" → convert w mode self = convert w "le" self.
Proof.
  intros Hmode. apply String.eqb_neq in Hmode.
  unfold convert, convert8, convert16, convert32.
  rewrite Hmode. reflexivity.
Qed.

Lemma convert_mode_default_witness :
  convert 8 "BE" (mk_data_buffer 16 [0x0102] 1 0)
  = convert 8 "le" (mk_data_buffer 16 [0x0102] 1 0).
Proof.
  apply (convert_mode_default 8 "BE" (mk_data_buffer 16 [0x0102] 1 0)).
  discriminate.
Defined.

(** ** Hashing and rendering *)

Section rendering.

Context (hexdigest : string → string).

Implicit Types (self other : data_buffer) (mode : string).

Lemma md5_width_buf mode self other :
  width self = width other → buf self = buf other →
  (md5 hexdigest mode self).1 = (md5 hexdigest mode other).1.
Proof.
  destruct self as [w l wr rd], other as [w' l' wr' rd']. cbn [width buf].
  intros <- <-. unfold md5, copy. cbn [width buf].
  destruct (convert8 mode (__init__ w (Some l))) as [[[]|e] y]; [|reflexivity].
  now destruct (join_chr (buf y)).
Qed.

(** X11: two buffers that [compare] equal have the same [md5] outcome,
    whatever their cursors. *)
Theorem compare_equal_md5 mode self other :
  compare self other = Ok true →
  (md5 hexdigest mode self).1 = (md5 hexdigest mode other).1.
Proof.
  rewrite compare_reflects. intros [= H].
  apply bool_decide_eq_true in H as [Hw Hb]. now apply md5_width_buf.
Qed.

Lemma split16_8_mask mode (x : Z) :
  split16_8 mode (Z.land x (util.mask 16)) = split16_8 mode x.
Proof.
  change (util.mask 16) with 65535. unfold split16_8.
  destruct (String.eqb mode "be"); elementwise; bits.
Qed.

Lemma split32_8_mask mode (x : Z) :
  split32_8 mode (Z.land x (util.mask 32)) = split32_8 mode x.
Proof.
  change (util.mask 32) with (Z.ones 32). rewrite Z.land_ones by lia.
  unfold split32_8.
  destruct (String.eqb mode "be"); elementwise; bits.
Qed.

Lemma map_mask_bytes (l : list Z) :
  Forall byte l → map (λ x, Z.land x (util.mask 8)) l = l.
Proof.
  induction 1 as [|x l Hx _ IH]; [reflexivity|].
  cbn [map]. rewrite IH, land_mask_in_range; [reflexivity|lia|exact Hx].
Qed.

(** The bytes [md5] hashes. *)
Lemma md5_bytes mode self :
  (width self = 8 →
     (convert8 mode (copy self)).2.(buf)
     = map (λ x, Z.land x (util.mask 8)) (buf self))
  ∧ (width self = 16 →
       (convert8 mode (copy self)).2.(buf) = buf self ≫= split16_8 mode)
  ∧ (width self = 32 →
       (convert8 mode (copy self)).2.(buf) = buf self ≫= split32_8 mode).
Proof.
  destruct self as [w l wr rd]. cbn [width buf]. repeat split; intros ->.
  - rewrite convert8_8 by reflexivity. unfold copy, __init__. cbn [snd buf width].
    now destruct l.
  - rewrite convert8_16 by reflexivity. unfold copy, __init__.
    cbn [snd buf width]. destruct l as [|x l]; [reflexivity|].
    generalize (x :: l). intros l'.
    induction l' as [|y l' IH]; [reflexivity|].
    cbn [map]. now rewrite !bind_cons, IH, split16_8_mask.
  - rewrite convert8_32 by reflexivity. unfold copy, __init__.
    cbn [snd buf width]. destruct l as [|x l]; [reflexivity|].
    generalize (x :: l). intros l'.
    induction l' as [|y l' IH]; [reflexivity|].
    cbn [map]. now rewrite !bind_cons, IH, split32_8_mask.
Qed.

Lemma md5_valid mode self :
  valid_width (width self) →
  (md5 hexdigest mode self).1
  = match join_chr (convert8 mode (copy self)).2.(buf) with
    | Ok s => Ok (hexdigest s)
    | Raise e => Raise e
    end.
Proof.
  intros Hw. destruct (md5_copy_bytes mode self Hw) as (y & Hy & _).
  unfold md5. rewrite Hy. cbn [snd]. now destruct (join_chr (buf y)).
Qed.

(** X12: hashing a buffer of width 8, 16 or 32 gives the same outcome as
    converting it to 8 bits with the same byte order first and hashing
    the result (with any byte order): the digest is one of the byte
    stream. *)
Theorem md5_of_converted (mode mode' : string) self :
  valid_width (width self) →
  (md5 hexdigest mode self).1
  = (md5 hexdigest mode' (convert 8 mode self).2).1.
Proof.
  intros Hw. rewrite (md5_valid mode self Hw).
  assert (Hw8 : width (convert 8 mode self).2 = 8).
  { unfold convert. cbn [Z.eqb Pos.eqb].
    destruct Hw as [Hw|[Hw|Hw]].
    - now rewrite convert8_8.
    - now rewrite convert8_16.
    - now rewrite convert8_32. }
  rewrite (md5_valid mode' _ (or_introl Hw8)).
  rewrite (proj1 (md5_bytes mode' _) Hw8).
  unfold convert. cbn [Z.eqb Pos.eqb].
  destruct Hw as [Hw|[Hw|Hw]].
  - rewrite (proj1 (md5_bytes mode self) Hw).
    rewrite convert8_8 by assumption. reflexivity.
  - rewrite (proj1 (proj2 (md5_bytes mode self)) Hw).
    rewrite convert8_16 by assumption. cbn [snd buf].
    rewrite map_mask_bytes; [reflexivity|].
    apply bind_range, split16_8_range.
  - rewrite (proj2 (proj2 (md5_bytes mode self)) Hw).
    rewrite convert8_32 by assumption. cbn [snd buf].
    rewrite map_mask_bytes; [reflexivity|].
    apply bind_range, split32_8_range.
Qed.

Lemma length_join_chr (l : list Z) (s : string) :
  join_chr l = Ok s → String.length s = length l.
Proof.
  revert s. induction l as [|b l IH]; intros s; cbn [join_chr].
  - now intros [= <-].
  - destruct (chr b) as [c|e]; cbn [mbind outcome_bind]; [|discriminate].
    destruct (join_chr l) as [s'|e]; cbn [mbind outcome_bind mret outcome_ret];
      [|discriminate].
    intros [= <-]. cbn [String.length length]. f_equal. now apply IH.
Qed.

(** X13: [to_str] fails with the assertion 'width must be 8 bits' on a
    buffer of another width; on an 8-bit buffer whose elements are in
    range it returns a string with one character per element, and [md5]
    (with any byte order) is the digest of that string. *)
Theorem to_str_md5 mode self :
  (width self ≠ 8 →
     to_str self = Raise (AssertionError "width must be 8 bits"))
  ∧ (width self = 8 → in_range self →
       ∃ s, to_str self = Ok s
         ∧ String.length s = __len__ self
         ∧ (md5 hexdigest mode self).1 = Ok (hexdigest s)).
Proof.
  split.
  - intros Hw. unfold to_str. now destruct (Z.eqb_spec (width self) 8).
  - intros Hw Hr. pose proof (in_range_bytes self Hw Hr) as Hb.
    destruct (join_chr_bytes _ Hb) as [s Hs]. exists s.
    unfold to_str. rewrite Hw. cbn [Z.eqb Pos.eqb].
    split; [exact Hs|]. split; [now apply length_join_chr|].
    rewrite (md5_valid mode self (or_introl Hw)).
    rewrite (proj1 (md5_bytes mode self) Hw), map_mask_bytes by assumption.
    now rewrite Hs.
Qed.

Lemma join_printable_bytes (printable : string) (l : list Z) :
  Forall byte l →
  ∃ s, join_printable printable l = Ok s
    ∧ String.length s = length l
    ∧ Forall (λ c, c = "."%char ∨ char_in c printable = true)
        (list_ascii_of_string s).
Proof.
  induction 1 as [|b l Hb _ (s & Hs & Hlen & Hall)].
  - exists EmptyString. repeat split. constructor.
  - cbn [join_printable]. unfold chr.
    unfold byte in Hb. change (2 ^ 8) with 256 in Hb.
    destruct (Z.leb_spec 0 b); [|lia]. destruct (Z.ltb_spec b 256); [|lia].
    cbn [andb mbind outcome_bind]. rewrite Hs.
    cbn [mbind outcome_bind mret outcome_ret]. eexists. split; [reflexivity|].
    split; [cbn [String.length length]; now rewrite Hlen|].
    cbn [list_ascii_of_string]. constructor; [|exact Hall].
    destruct (char_in _ printable) eqn:E; [now right|now left].
Qed.

(** X14: [ascii_str] fails with the assertion 'width must be 8 bits' on
    a buffer of another width; on an 8-bit buffer whose elements are in
    range it returns a string with one character per element, each of
    them a dot or a character of [printable]. *)
Theorem ascii_str_printable (printable : string) self :
  (width self ≠ 8 →
     ascii_str printable self = Raise (AssertionError "width must be 8 bits"))
  ∧ (width self = 8 → in_range self →
       ∃ s, ascii_str printable self = Ok s
         ∧ String.length s = __len__ self
         ∧ Forall (λ c, c = "."%char ∨ char_in c printable = true)
             (list_ascii_of_string s)).
Proof.
  split.
  - intros Hw. unfold ascii_str. now destruct (Z.eqb_spec (width self) 8).
  - intros Hw Hr. unfold ascii_str. rewrite Hw. cbn [Z.eqb Pos.eqb].
    apply join_printable_bytes. now apply in_range_bytes.
Qed.

End rendering.

Lemma compare_equal_md5_witness :
  (md5 (λ s, s) "le" (mk_data_buffer 16 [0x4142] 1 0)).1
  = (md5 (λ s, s) "le" (mk_data_buffer 16 [0x4142] 1 1)).1.
Proof.
  apply (compare_equal_md5 (λ s, s) "le"
           (mk_data_buffer 16 [0x4142] 1 0) (mk_data_buffer 16 [0x4142] 1 1)).
  reflexivity.
Defined.

Lemma md5_of_converted_witness :
  (md5 (λ s, s) "be" (mk_data_buffer 32 [0x41424344] 1 0)).1
  = (md5 (λ s, s) "le"
       (convert 8 "be" (mk_data_buffer 32 [0x41424344] 1 0)).2).1.
Proof.
  apply (md5_of_converted (λ s, s) "be" "le"
           (mk_data_buffer 32 [0x41424344] 1 0)).
  right. right. reflexivity.
Defined.

Lemma to_str_md5_witness :
  to_str (mk_data_buffer 16 [0x4142] 1 0)
  = Raise (AssertionError "width must be 8 bits")
  ∧ ∃ s, to_str (mk_data_buffer 8 [0x41; 0x42] 2 0) = Ok s
      ∧ String.length s = 2%nat
      ∧ (md5 (λ s, s) "le" (mk_data_buffer 8 [0x41; 0x42] 2 0)).1 = Ok s.
Proof.
  split.
  - apply (proj1 (to_str_md5 (λ s, s) "le" (mk_data_buffer 16 [0x4142] 1 0))).
    discriminate.
  - apply (proj2 (to_str_md5 (λ s, s) "le"
                    (mk_data_buffer 8 [0x41; 0x42] 2 0))).
    + reflexivity.
    + repeat constructor; cbn; lia.
Defined.

Lemma ascii_str_printable_witness :
  ∃ s, ascii_str "AB" (mk_data_buffer 8 [0x41; 0x07] 2 0) = Ok s
    ∧ String.length s = 2%nat
    ∧ Forall (λ c, c = "."%char ∨ char_in c "AB" = true)
        (list_ascii_of_string s).
Proof.
  apply (proj2 (ascii_str_printable "AB" (mk_data_buffer 8 [0x41; 0x07] 2 0))).
  - reflexivity.
  - repeat constructor; cbn; lia.
Defined.

(** ** The stream adapters *)

Section adapters.

Context `{Display D}.

Implicit Types (mode : string) (val : Z).

Lemma pack_fmt32 mode val :
  struct.pack (fmt32_of mode) val
  = if (0 <=? val) && (val <? 2 ^ 32) then Some (split32_8 (order mode) val)
    else None.
Proof.
  unfold fmt32_of, order. now destruct (String.eqb mode "le").
Qed.

Lemma pack_fmt16 mode val :
  struct.pack (fmt16_of mode) val
  = if (0 <=? val) && (val <? 2 ^ 16) then Some (split16_8 (order mode) val)
    else None.
Proof.
  unfold fmt16_of, order. now destruct (String.eqb mode "le").
Qed.

Lemma pack_B val :
  struct.pack "B" val = if (0 <=? val) && (val <? 2 ^ 8) then Some [val] else None.
Proof. reflexivity. Qed.

Lemma unpack_fmt32 mode (b0 b1 b2 b3 : Z) :
  struct.unpack (fmt32_of mode) [b0; b1; b2; b3]
  = Some (join32 (order mode) b0 b1 b2 b3).
Proof.
  unfold fmt32_of, order. now destruct (String.eqb mode "le").
Qed.

Lemma unpack_fmt16 mode (b0 b1 : Z) :
  struct.unpack (fmt16_of mode) [b0; b1] = Some (join16 (order mode) b0 b1).
Proof.
  unfold fmt16_of, order. now destruct (String.eqb mode "le").
Qed.

Lemma written_invariant mode (self : write_file.t D) :
  written mode self →
  write_file.fmt16 self = fmt16_of mode
  ∧ write_file.fmt32 self = fmt32_of mode
  ∧ write_file.n self = length (write_file.f self)
  ∧ Forall byte (write_file.f self).
Proof.
  induction 1 as [ui msg size|val self _ (H16 & H32 & Hn & Hb)
                 |val self _ (H16 & H32 & Hn & Hb)
                 |val self _ (H16 & H32 & Hn & Hb)].
  - repeat split. constructor.
  - unfold write_file.wr32. rewrite H32, pack_fmt32.
    destruct ((0 <=? val) && (val <? 2 ^ 32)); cbn; [|now repeat split].
    repeat split; try assumption.
    + rewrite length_app, Hn. unfold split32_8.
      now destruct (String.eqb (order mode) "be").
    + apply Forall_app. split; [assumption|apply split32_8_range].
  - unfold write_file.wr16. rewrite H16, pack_fmt16.
    destruct ((0 <=? val) && (val <? 2 ^ 16)); cbn; [|now repeat split].
    repeat split; try assumption.
    + rewrite length_app, Hn. unfold split16_8.
      now destruct (String.eqb (order mode) "be").
    + apply Forall_app. split; [assumption|apply split16_8_range].
  - unfold write_file.wr8. rewrite pack_B.
    destruct (0 <=? val) eqn:E0; [|now repeat split].
    destruct (val <? 2 ^ 8) eqn:E1; cbn; [|now repeat split].
    repeat split; try assumption.
    + rewrite length_app, Hn. reflexivity.
    + apply Forall_app. split; [assumption|]. repeat constructor; lia.
Qed.

(** X15: for every writer obtained from [write_file(...)] through
    [wr32], [wr16] and [wr8], successful or not, the counter [n] is the
    number of bytes in the file, and the file holds bytes only. *)
Theorem writer_counts_bytes mode (self : write_file.t D) :
  written mode self →
  write_file.n self = length (write_file.f self)
  ∧ Forall byte (write_file.f self).
Proof. intros Hw. now apply written_invariant in Hw. Qed.

(** X16: a writer opened with [mode] appends, for a value that fits, the
    value's 4 ([wr32]), 2 ([wr16]) bytes in its byte order, or its single
    byte ([wr8]), and counts them; a value that does not fit 32, 16 or 8
    bits is refused with [struct.error], and nothing is written or
    counted. *)
Theorem writer_appends mode val (self : write_file.t D) :
  written mode self →
  (0 <= val < 2 ^ 32 →
     ∃ self', write_file.wr32 val self = (Some tt, self')
       ∧ write_file.f self' = write_file.f self ++ split32_8 (order mode) val
       ∧ write_file.n self' = (write_file.n self + 4)%nat)
  ∧ (0 <= val < 2 ^ 16 →
       ∃ self', write_file.wr16 val self = (Some tt, self')
         ∧ write_file.f self' = write_file.f self ++ split16_8 (order mode) val
         ∧ write_file.n self' = (write_file.n self + 2)%nat)
  ∧ (0 <= val < 2 ^ 8 →
       ∃ self', write_file.wr8 val self = (Some tt, self')
         ∧ write_file.f self' = write_file.f self ++ [val]
         ∧ write_file.n self' = (write_file.n self + 1)%nat)
  ∧ (¬ 0 <= val < 2 ^ 32 → write_file.wr32 val self = (None, self))
  ∧ (¬ 0 <= val < 2 ^ 16 → write_file.wr16 val self = (None, self))
  ∧ (¬ 0 <= val < 2 ^ 8 → write_file.wr8 val self = (None, self)).
Proof.
  intros Hw. apply written_invariant in Hw as (H16 & H32 & _ & _).
  unfold write_file.wr32, write_file.wr16, write_file.wr8.
  rewrite H16, H32, pack_fmt32, pack_fmt16, pack_B.
  repeat split; intros Hv.
  - destruct (Z.leb_spec 0 val); [|lia].
    destruct (Z.ltb_spec val (2 ^ 32)); [|lia]. cbn [andb]. now eexists.
  - destruct (Z.leb_spec 0 val); [|lia].
    destruct (Z.ltb_spec val (2 ^ 16)); [|lia]. cbn [andb]. now eexists.
  - destruct (Z.leb_spec 0 val); [|lia].
    destruct (Z.ltb_spec val (2 ^ 8)); [|lia]. cbn [andb]. now eexists.
  - destruct (Z.leb_spec 0 val); [|reflexivity].
    destruct (Z.ltb_spec val (2 ^ 32)); [lia|reflexivity].
  - destruct (Z.leb_spec 0 val); [|reflexivity].
    destruct (Z.ltb_spec val (2 ^ 16)); [lia|reflexivity].
  - destruct (Z.leb_spec 0 val); [|reflexivity].
    destruct (Z.ltb_spec val (2 ^ 8)); [lia|reflexivity].
Qed.

(** What [f.read(k)] returns, filled up with 0xFF when it comes back
    short: the first [k] bytes of the rest of the file followed by an
    endless run of 0xFF. *)
Lemma take_fill (k : nat) (l : list Z) :
  (if negb (length (take k l) =? k)%nat
   then take k l ++ replicate (k - length (take k l)) 255
   else take k l)
  = take k (l ++ replicate k 255).
Proof.
  rewrite length_take.
  destruct (Nat.le_gt_cases k (length l)) as [Hle|Hgt].
  - rewrite Nat.min_l by assumption. rewrite Nat.eqb_refl. cbn [negb].
    now rewrite take_app_le.
  - rewrite Nat.min_r by lia.
    destruct (Nat.eqb_spec (length l) k); [lia|]. cbn [negb].
    rewrite take_ge by lia. rewrite take_app_ge by lia.
    rewrite take_replicate. f_equal. f_equal. lia.
Qed.

Lemma take_fill_1 (l : list Z) :
  (if (length (take 1 l) =? 0)%nat then [255] else take 1 l)
  = take 1 (l ++ replicate 1 255).
Proof. now destruct l. Qed.

Lemma take_4_filled (l : list Z) :
  ∃ b0 b1 b2 b3, take 4 (l ++ replicate 4 255) = [b0; b1; b2; b3].
Proof.
  destruct l as [|b0 [|b1 [|b2 [|b3 l]]]]; cbn; now eexists _, _, _, _.
Qed.

Lemma take_2_filled (l : list Z) :
  ∃ b0 b1, take 2 (l ++ replicate 2 255) = [b0; b1].
Proof. destruct l as [|b0 [|b1 l]]; cbn; now eexists _, _. Qed.

Lemma reading_invariant mode (contents : list Z) (self : read_file.t D) :
  reading mode contents self →
  read_file.fmt16 self = fmt16_of mode
  ∧ read_file.fmt32 self = fmt32_of mode
  ∧ read_file.f self = drop (read_file.n self) contents.
Proof.
  induction 1 as [ui msg size|self _ (H16 & H32 & Hf)
                 |self _ (H16 & H32 & Hf)|self _ (H16 & H32 & Hf)].
  - repeat split.
  - cbn. repeat split; try assumption. now rewrite Hf, drop_drop.
  - cbn. repeat split; try assumption. now rewrite Hf, drop_drop.
  - cbn. repeat split; try assumption. now rewrite Hf, drop_drop.
Qed.

(** X17: a reader never fails and reads the file as if it were followed
    by an endless run of 0xFF bytes: [rd32], [rd16] and [rd8] decode the
    next 4, 2 and 1 bytes of the unread rest of the file extended by
    0xFF, in the reader's byte order, and move on by up to that many
    bytes while the counter grows by exactly 4, 2 and 1. *)
Theorem reader_fills_with_ff mode (contents : list Z) (self : read_file.t D) :
  reading mode contents self →
  (∃ v, (read_file.rd32 self).1 = Some v
     ∧ quads (order mode) (take 4 (read_file.f self ++ replicate 4 255)) = [v])
  ∧ (∃ v, (read_file.rd16 self).1 = Some v
       ∧ pairs (order mode) (take 2 (read_file.f self ++ replicate 2 255))
         = [v])
  ∧ (∃ v, (read_file.rd8 self).1 = Some v
       ∧ take 1 (read_file.f self ++ replicate 1 255) = [v])
  ∧ (read_file.f (read_file.rd32 self).2 = drop 4 (read_file.f self)
     ∧ read_file.n (read_file.rd32 self).2 = (read_file.n self + 4)%nat)
  ∧ (read_file.f (read_file.rd16 self).2 = drop 2 (read_file.f self)
     ∧ read_file.n (read_file.rd16 self).2 = (read_file.n self + 2)%nat)
  ∧ (read_file.f (read_file.rd8 self).2 = drop 1 (read_file.f self)
     ∧ read_file.n (read_file.rd8 self).2 = (read_file.n self + 1)%nat).
Proof.
  intros Hr. apply reading_invariant in Hr as (H16 & H32 & _).
  unfold read_file.rd32, read_file.rd16, read_file.rd8.
  cbn [fst snd read_file.f read_file.n read_file.fmt16 read_file.fmt32].
  rewrite H16, H32, !take_fill, take_fill_1.
  split; [|split; [|split; [|repeat split]]].
  - destruct (take_4_filled (read_file.f self)) as (b0 & b1 & b2 & b3 & ->).
    rewrite unpack_fmt32. now eexists.
  - destruct (take_2_filled (read_file.f self)) as (b0 & b1 & ->).
    rewrite unpack_fmt16. now eexists.
  - destruct (read_file.f self) as [|b0 l]; cbn; now eexists.
Qed.

(** X18: a reader is always at the byte offset its counter shows: the
    unread rest of the file is the contents without the first [n] bytes.
    Once the counter has reached the size of the file, the rest is empty
    and [rd32], [rd16] and [rd8] return 0xFFFFFFFF, 0xFFFF and 0xFF in
    either byte order. *)
Theorem reader_offset mode (contents : list Z) (self : read_file.t D) :
  reading mode contents self →
  read_file.f self = drop (read_file.n self) contents
  ∧ ((length contents ≤ read_file.n self)%nat →
       (read_file.rd32 self).1 = Some 0xFFFFFFFF
       ∧ (read_file.rd16 self).1 = Some 0xFFFF
       ∧ (read_file.rd8 self).1 = Some 0xFF).
Proof.
  intros Hr. apply reading_invariant in Hr as (H16 & H32 & Hf).
  split; [exact Hf|]. intros Hend.
  assert (Hnil : read_file.f self = []) by (rewrite Hf; now apply drop_ge).
  unfold read_file.rd32, read_file.rd16, read_file.rd8.
  cbn [fst snd read_file.f read_file.n read_file.fmt16 read_file.fmt32].
  rewrite H16, H32, Hnil. cbn [take length Nat.eqb negb app replicate Nat.sub].
  rewrite unpack_fmt32, unpack_fmt16. unfold join32, join16.
  now destruct (String.eqb (order mode) "be").
Qed.

Lemma unpack_pack32 mode val :
  0 <= val < 2 ^ 32 →
  struct.unpack (fmt32_of mode) (split32_8 (order mode) val) = Some val.
Proof.
  intros Hv. pose proof (quads_split32_8 (order mode) val [] Hv) as Hq.
  rewrite app_nil_r in Hq. unfold split32_8 in *.
  destruct (String.eqb (order mode) "be"); rewrite unpack_fmt32;
    cbn [quads] in Hq; now injection Hq as ->.
Qed.

Lemma unpack_pack16 mode val :
  0 <= val < 2 ^ 16 →
  struct.unpack (fmt16_of mode) (split16_8 (order mode) val) = Some val.
Proof.
  intros Hv. pose proof (join16_split16_8 (order mode) val [] Hv) as Hq.
  rewrite app_nil_r in Hq. unfold split16_8 in *.
  destruct (String.eqb (order mode) "be"); rewrite unpack_fmt16;
    cbn [pairs] in Hq; now injection Hq as ->.
Qed.

Lemma take_split32_8 (m : string) (val : Z) (rest fill : list Z) :
  take 4 ((split32_8 m val ++ rest) ++ fill) = split32_8 m val
  ∧ drop 4 (split32_8 m val ++ rest) = rest.
Proof. unfold split32_8. now destruct (String.eqb m "be"). Qed.

Lemma take_split16_8 (m : string) (val : Z) (rest fill : list Z) :
  take 2 ((split16_8 m val ++ rest) ++ fill) = split16_8 m val
  ∧ drop 2 (split16_8 m val ++ rest) = rest.
Proof. unfold split16_8. now destruct (String.eqb m "be"). Qed.

(** X19: what a writer writes, a reader opened with the same [mode]
    reads back: when the reader stands at the bytes that [wr32] (or
    [wr16], [wr8]) appended for a value that fits, [rd32] ([rd16],
    [rd8]) returns that value and stands behind those bytes. *)
Theorem write_read_round_trip mode val (contents rest : list Z)
    (out : write_file.t D) (inp : read_file.t D) :
  written mode out → reading mode contents inp →
  (0 <= val < 2 ^ 32 →
     read_file.f inp
     = drop (write_file.n out) (write_file.f (write_file.wr32 val out).2)
       ++ rest →
     (read_file.rd32 inp).1 = Some val
     ∧ read_file.f (read_file.rd32 inp).2 = rest)
  ∧ (0 <= val < 2 ^ 16 →
       read_file.f inp
       = drop (write_file.n out) (write_file.f (write_file.wr16 val out).2)
         ++ rest →
       (read_file.rd16 inp).1 = Some val
       ∧ read_file.f (read_file.rd16 inp).2 = rest)
  ∧ (0 <= val < 2 ^ 8 →
       read_file.f inp
       = drop (write_file.n out) (write_file.f (write_file.wr8 val out).2)
         ++ rest →
       (read_file.rd8 inp).1 = Some val
       ∧ read_file.f (read_file.rd8 inp).2 = rest).
Proof.
  intros Hw Hr.
  apply written_invariant in Hw as (Hw16 & Hw32 & Hn & _).
  apply reading_invariant in Hr as (H16 & H32 & _).
  unfold write_file.wr32, write_file.wr16, write_file.wr8.
  rewrite Hw16, Hw32, pack_fmt32, pack_fmt16, pack_B, Hn.
  unfold read_file.rd32, read_file.rd16, read_file.rd8.
  cbn [fst snd read_file.f read_file.n read_file.fmt16 read_file.fmt32].
  rewrite H16, H32, !take_fill, take_fill_1.
  split; [|split]; intros Hv.
  - destruct (Z.leb_spec 0 val); [|lia].
    destruct (Z.ltb_spec val (2 ^ 32)); [|lia].
    cbn [andb snd write_file.f]. rewrite drop_app_length. intros ->.
    destruct (take_split32_8 (order mode) val rest (replicate 4 255))
      as [-> ->].
    split; [now apply unpack_pack32|reflexivity].
  - destruct (Z.leb_spec 0 val); [|lia].
    destruct (Z.ltb_spec val (2 ^ 16)); [|lia].
    cbn [andb snd write_file.f]. rewrite drop_app_length. intros ->.
    destruct (take_split16_8 (order mode) val rest (replicate 2 255))
      as [-> ->].
    split; [now apply unpack_pack16|reflexivity].
  - destruct (Z.leb_spec 0 val); [|lia].
    destruct (Z.ltb_spec val (2 ^ 8)); [|lia].
    cbn [andb snd write_file.f]. rewrite drop_app_length. intros ->.
    split; reflexivity.
Qed.

Lemma verifying_invariant mode (contents : list Z) (self : verify_file.t D) :
  verifying mode contents self →
  verify_file.fmt32 self = fmt32_of mode
  ∧ verify_file.f self = drop (verify_file.n self) contents.
Proof.
  induction 1 as [ui msg size|val self _ (H32 & Hf)].
  - repeat split.
  - unfold verify_file.wr32, verify_file.file_rd32.
    cbn [verify_file.f verify_file.n verify_file.fmt32 verify_file.diff
         verify_file.ui verify_file.fmt16].
    rewrite H32, take_fill.
    destruct (take_4_filled (verify_file.f self)) as (b0 & b1 & b2 & b3 & ->).
    rewrite unpack_fmt32.
    cbn [snd verify_file.f verify_file.n verify_file.fmt32].
    split; [reflexivity|]. now rewrite Hf, drop_drop.
Qed.

(** X20: a verifier never fails; [wr32(val)] compares [val] with the
    value decoded, in the verifier's byte order, from the next 4 bytes
    of the file (extended by 0xFF at its end), appends
    [(n, val, value in the file)] to [diff] exactly when the two differ,
    with [n] the byte offset before the call, and moves on by 4 bytes. *)
Theorem verifier_records_differences mode val (contents : list Z)
    (self : verify_file.t D) :
  verifying mode contents self →
  ∃ x self',
    verify_file.wr32 val self = (Some tt, self')
    ∧ quads (order mode) (take 4 (verify_file.f self ++ replicate 4 255))
      = [x]
    ∧ verify_file.diff self'
      = (if decide (val = x) then verify_file.diff self
         else verify_file.diff self ++ [(verify_file.n self, val, x)])
    ∧ verify_file.n self' = (verify_file.n self + 4)%nat
    ∧ verify_file.f self' = drop (verify_file.n self + 4) contents.
Proof.
  intros Hv. apply verifying_invariant in Hv as (H32 & Hf).
  unfold verify_file.wr32, verify_file.file_rd32.
  cbn [verify_file.f verify_file.n verify_file.fmt32 verify_file.diff
       verify_file.ui verify_file.fmt16].
  rewrite H32, take_fill.
  destruct (take_4_filled (verify_file.f self)) as (b0 & b1 & b2 & b3 & ->).
  rewrite unpack_fmt32. eexists _, _. split; [reflexivity|].
  split; [reflexivity|].
  cbn [verify_file.diff verify_file.n verify_file.f].
  split; [|split; [reflexivity|now rewrite Hf, drop_drop]].
  destruct (Z.eqb_spec val (join32 (order mode) b0 b1 b2 b3)) as [Heq|Hne];
    cbn [negb]; now destruct (decide _).
Qed.

(** X21: verifying what was written finds no difference: when the
    verifier stands at the bytes that a writer opened with the same
    [mode] appended for a value that fits 32 bits, [wr32] of that value
    leaves [diff] as it was, while [wr32] of any other value appends the
    triple of the offset, the value and the value written. *)
Theorem verify_after_write mode val val' (contents rest : list Z)
    (out : write_file.t D) (self : verify_file.t D) :
  written mode out → verifying mode contents self →
  0 <= val < 2 ^ 32 →
  verify_file.f self
  = drop (write_file.n out) (write_file.f (write_file.wr32 val out).2)
    ++ rest →
  verify_file.diff (verify_file.wr32 val self).2 = verify_file.diff self
  ∧ (val' ≠ val →
       verify_file.diff (verify_file.wr32 val' self).2
       = verify_file.diff self ++ [(verify_file.n self, val', val)]).
Proof.
  intros Hw Hv Hval.
  apply written_invariant in Hw as (_ & Hw32 & Hn & _).
  apply verifying_invariant in Hv as (H32 & _).
  unfold write_file.wr32. rewrite Hw32, pack_fmt32, Hn.
  destruct (Z.leb_spec 0 val); [|lia].
  destruct (Z.ltb_spec val (2 ^ 32)); [|lia].
  cbn [andb snd write_file.f]. rewrite drop_app_length. intros Hf.
  unfold verify_file.wr32, verify_file.file_rd32.
  cbn [verify_file.f verify_file.n verify_file.fmt32 verify_file.diff
       verify_file.ui verify_file.fmt16].
  rewrite H32, take_fill, Hf.
  destruct (take_split32_8 (order mode) val rest (replicate 4 255)) as [-> _].
  rewrite unpack_pack32 by assumption.
  cbn [snd verify_file.diff verify_file.n]. split.
  - now rewrite Z.eqb_refl.
  - intros Hne. now destruct (Z.eqb_spec val' val).
Qed.

Lemma wr32_all_appends mode : ∀ (vals : list Z) (out : write_file.t D),
  written mode out → Forall (λ e, 0 <= e < 2 ^ 32) vals →
  ∃ out', wr32_all vals out = (Some tt, out')
    ∧ write_file.f out'
      = write_file.f out ++ (vals ≫= split32_8 (order mode)).
Proof.
  induction vals as [|val vals IH]; intros out Hw Hvals.
  - exists out. split; [reflexivity|]. now rewrite app_nil_r.
  - apply Forall_cons in Hvals as [Hval Hvals].
    pose proof (written_wr32 mode val out Hw) as Hw'.
    apply written_invariant in Hw as (_ & H32 & _ & _).
    cbn [wr32_all]. revert Hw'. unfold write_file.wr32.
    rewrite H32, pack_fmt32.
    destruct (Z.leb_spec 0 val); [|lia].
    destruct (Z.ltb_spec val (2 ^ 32)); [|lia].
    cbn [andb snd]. intros Hw'.
    destruct (IH _ Hw' Hvals) as (out' & Hrun & Hf).
    exists out'. split; [exact Hrun|].
    rewrite Hf. cbn [write_file.f]. now rewrite bind_cons, app_assoc.
Qed.

(** X22: writing the elements of a 32-bit buffer whose elements are in
    range one by one with [wr32] to a newly opened writer never fails;
    the file then holds exactly the elements of the buffer converted to
    8 bits: converted with ['le'] when the writer was opened with ['le'],
    and converted with ['be'] when it was opened with any other mode
    string. *)
Theorem write_file_is_convert8 (ui : D) (msg : string) (size : Z) mode
    (self : data_buffer) :
  width self = 32 → in_range self →
  ∃ out, wr32_all (buf self) (write_file.__init__ ui msg size mode)
         = (Some tt, out)
    ∧ (mode = "le" → write_file.f out = buf (convert 8 "le" self).2)
    ∧ (mode ≠ "le" → write_file.f out = buf (convert 8 "be" self).2).
Proof.
  intros Hw Hr. unfold in_range in Hr. rewrite Hw in Hr.
  destruct (wr32_all_appends mode (buf self)
              (write_file.__init__ ui msg size mode)
              (written_init mode ui msg size) Hr) as (out & Hrun & Hf).
  exists out. split; [exact Hrun|].
  unfold convert. cbn [Z.eqb Pos.eqb]. rewrite !convert8_32 by assumption.
  cbn [snd buf write_file.f write_file.__init__ app] in *.
  split; intros Hmode; rewrite Hf; unfold order.
  - now rewrite Hmode.
  - apply String.eqb_neq in Hmode. now rewrite Hmode.
Qed.

End adapters.

(** ** The width-specific accessors *)

(** X1: each of [rd8], [rd16], [rd32] is [read], and each of [wr8],
    [wr16], [wr32] is [write], on a buffer of the accessor's width; on a
    buffer of any other width it fails with an assertion that carries no
    message, and the buffer is left as it was. *)
Theorem accessor_width_guard (self : data_buffer) (val : Z) :
  (width self = 8 → rd8 self = read self ∧ wr8 val self = write val self)
  ∧ (width self = 16 →
       rd16 self = read self ∧ wr16 val self = write val self)
  ∧ (width self = 32 →
       rd32 self = read self ∧ wr32 val self = write val self)
  ∧ (width self ≠ 8 →
       rd8 self = (Raise (AssertionError EmptyString), self)
       ∧ wr8 val self = (Raise (AssertionError EmptyString), self))
  ∧ (width self ≠ 16 →
       rd16 self = (Raise (AssertionError EmptyString), self)
       ∧ wr16 val self = (Raise (AssertionError EmptyString), self))
  ∧ (width self ≠ 32 →
       rd32 self = (Raise (AssertionError EmptyString), self)
       ∧ wr32 val self = (Raise (AssertionError EmptyString), self)).
Proof.
  unfold rd8, rd16, rd32, wr8, wr16, wr32. cbv [mbind M_bind get raise].
  repeat split;
    match goal with
    | Hw : width self = _ |- _ => now rewrite Hw
    | Hw : width self ≠ ?w |- _ => now destruct (Z.eqb_spec (width self) w)
    end.
Qed.

Lemma accessor_width_guard_witness :
  rd16 (mk_data_buffer 8 [1; 2] 2 0)
  = (Raise (AssertionError EmptyString), mk_data_buffer 8 [1; 2] 2 0)
  ∧ rd8 (mk_data_buffer 8 [1; 2] 2 0) = read (mk_data_buffer 8 [1; 2] 2 0).
Proof.
  split.
  - apply (proj1 (proj2 (proj2 (proj2 (proj2
             (accessor_width_guard (mk_data_buffer 8 [1; 2] 2 0) 0)))))).
    discriminate.
  - apply (proj1 (accessor_width_guard (mk_data_buffer 8 [1; 2] 2 0) 0)).
    reflexivity.
Defined.

Lemma writer_counts_bytes_witness :
  write_file.n
    (write_file.wr16 0x0102 (write_file.__init__ tt "writing" 2 "be")).2
  = 2%nat.
Proof.
  apply (writer_counts_bytes "be"
           (write_file.wr16 0x0102
              (write_file.__init__ tt "writing" 2 "be")).2).
  apply written_wr16, written_init.
Defined.

Lemma writer_appends_witness :
  (∃ self', write_file.wr32 0x01020304
              (write_file.__init__ tt "writing" 4 "le") = (Some tt, self')
     ∧ write_file.f self' = [4; 3; 2; 1]
     ∧ write_file.n self' = 4%nat)
  ∧ write_file.wr8 256 (write_file.__init__ tt "writing" 4 "le")
    = (None, write_file.__init__ tt "writing" 4 "le").
Proof.
  split.
  - apply (proj1 (writer_appends "le" 0x01020304
                    (write_file.__init__ tt "writing" 4 "le")
                    (written_init "le" tt "writing" 4))).
    lia.
  - apply (proj2 (proj2 (proj2 (proj2 (proj2
             (writer_appends "le" 256
                (write_file.__init__ tt "writing" 4 "le")
                (written_init "le" tt "writing" 4))))))).
    lia.
Defined.

Lemma reader_fills_with_ff_witness :
  ∃ v, (read_file.rd32 (read_file.__init__ tt "reading" [1; 2] 2 "le")).1
       = Some v
    ∧ quads (order "le") (take 4 ([1; 2] ++ replicate 4 255)) = [v].
Proof.
  apply (proj1 (reader_fills_with_ff "le" [1; 2]
                  (read_file.__init__ tt "reading" [1; 2] 2 "le")
                  (reading_init "le" [1; 2] tt "reading" 2))).
Defined.

Lemma reader_offset_witness :
  (read_file.rd32
     (read_file.rd8 (read_file.__init__ tt "reading" [7] 1 "be")).2).1
  = Some 0xFFFFFFFF.
Proof.
  apply (proj2 (reader_offset "be" [7]
                  (read_file.rd8
                     (read_file.__init__ tt "reading" [7] 1 "be")).2
                  (reading_rd8 "be" [7] _
                     (reading_init "be" [7] tt "reading" 1)))).
  cbn. lia.
Defined.

Lemma write_read_round_trip_witness :
  (read_file.rd32
     (read_file.__init__ tt "reading" [0x01; 0x02; 0x03; 0x04; 9] 5 "be")).1
  = Some 0x01020304.
Proof.
  apply (proj1 (write_read_round_trip "be" 0x01020304
                  [0x01; 0x02; 0x03; 0x04; 9] [9]
                  (write_file.__init__ tt "writing" 4 "be")
                  (read_file.__init__ tt "reading"
                     [0x01; 0x02; 0x03; 0x04; 9] 5 "be")
                  (written_init "be" tt "writing" 4)
                  (reading_init "be" _ tt "reading" 5))).
  - lia.
  - reflexivity.
Defined.

Lemma verifier_records_differences_witness :
  ∃ x self',
    verify_file.wr32 5 (verify_file.__init__ tt "verifying" [5; 0; 0] 3 "le")
    = (Some tt, self')
    ∧ quads (order "le") (take 4 ([5; 0; 0] ++ replicate 4 255)) = [x]
    ∧ verify_file.diff self'
      = (if decide (5 = x) then [] else [] ++ [(0%nat, 5, x)])
    ∧ verify_file.n self' = 4%nat
    ∧ verify_file.f self' = drop 4 [5; 0; 0].
Proof.
  apply (verifier_records_differences "le" 5 [5; 0; 0]
           (verify_file.__init__ tt "verifying" [5; 0; 0] 3 "le")
           (verifying_init "le" [5; 0; 0] tt "verifying" 3)).
Defined.

Lemma verify_after_write_witness :
  verify_file.diff
    (verify_file.wr32 0x01020304
       (verify_file.__init__ tt "verifying" [4; 3; 2; 1] 4 "le")).2 = []
  ∧ verify_file.diff
      (verify_file.wr32 7
         (verify_file.__init__ tt "verifying" [4; 3; 2; 1] 4 "le")).2
    = [(0%nat, 7, 0x01020304)].
Proof.
  destruct (verify_after_write "le" 0x01020304 7 [4; 3; 2; 1] []
              (write_file.__init__ tt "writing" 4 "le")
              (verify_file.__init__ tt "verifying" [4; 3; 2; 1] 4 "le")
              (written_init "le" tt "writing" 4)
              (verifying_init "le" _ tt "verifying" 4)) as [Hsame Hdiff].
  - lia.
  - reflexivity.
  - split; [exact Hsame|]. apply Hdiff. lia.
Defined.

Lemma write_file_is_convert8_witness :
  ∃ out, wr32_all [0x01020304]
           (write_file.__init__ tt "writing" 4 "big") = (Some tt, out)
    ∧ write_file.f out = [1; 2; 3; 4].
Proof.
  destruct (write_file_is_convert8 tt "writing" 4 "big"
              (mk_data_buffer 32 [0x01020304] 1 0) eq_refl)
    as (out & Hrun & _ & Hbig).
  - repeat constructor; cbn; lia.
  - exists out. split; [exact Hrun|]. apply Hbig. discriminate.
Defined.
